(** * sessionsTableLogic: the sessions query controller and its URL synchroniser

    A shallow embedding of the kea logic [sessionsTableLogic]
    (frontend/src/scenes/sessions/sessionsTableLogic): its reducers, its
    selectors, its listeners and loader, [buildURL] and [urlToAction].

    The store is a record, reducers are pure functions on it, and the
    asynchronous listeners are a step function over a run-time state that
    keeps, next to the store, the breakpoint counters of the two asynchronous
    listeners and the requests that are waiting or in flight. *)

From Stdlib Require Import String List ZArith Bool Lia PeanoNat.
From Stdlib Require Import DecimalString.
Import ListNotations.
Open Scope string_scope.
Open Scope list_scope.
Open Scope Z_scope.

(** ** What the logic imports *)

(** The part of the [moment] library that the logic calls.  [moment()] reads
    the clock, so every function that calls it takes the current instant as
    an argument named [now]. *)
Class MomentLib := {
  Moment : Type;
  (** [moment(s)] for a string [s] *)
  moment_parse : string -> Moment;
  (** [moment(m)] for a stored value [m : Moment | null] *)
  moment_of : option Moment -> Moment;
  (** [m.startOf('day')] *)
  startOf_day : Moment -> Moment;
  (** [m.format('YYYY-MM-DD')] *)
  format_ymd : Moment -> string;
  (** [m.add(n, 'day')] *)
  add_days : Z -> Moment -> Moment
}.

(** [PropertyFilter] and [SessionType] are declared in [~/types]; the logic
    reads one field of a session and serialises filter lists with
    [JSON.stringify]. *)
Class AppTypes := {
  PropertyFilter : Type;
  SessionType : Type;
  session_recording_ids : SessionType -> list string;
  JSON_stringify : list PropertyFilter -> string
}.

Definition SessionRecordingId := string.

(** JavaScript truthiness of the values the logic tests. *)
Definition truthy_string (s : option string) : bool :=
  match s with
  | Some s => negb (String.eqb s "")
  | None => false
  end.

Definition truthy_number (n : option Z) : bool :=
  match n with
  | Some n => negb (n =? 0)
  | None => false
  end.

(** [a === b] on two values that are a string or absent; the logic never
    compares two absent values. *)
Definition opt_string_eqb (a b : option string) : bool :=
  match a, b with
  | Some x, Some y => String.eqb x y
  | None, None => true
  | _, _ => false
  end.

Section SessionsTableLogic.

Context {ML : MomentLib} {AT : AppTypes}.

(** [type Params]: the query parameters of the page URL.  [properties] is
    typed [any] in the source; the router hands over the decoded filter list
    when the parameter is present. *)
Record Params := {
  date : option string;
  param_properties : option (list PropertyFilter);
  param_sessionRecordingId : option SessionRecordingId
}.

(** The two object literals handed to [toParams]. *)
Inductive Query :=
| FirstPage (date_from date_to : option string) (offset : Z)
            (distinct_id : option string) (props : list PropertyFilter)
| NextPage (date_from date_to : option string) (offset : option Z).

(** [{ result: Session[], offset?: number }] *)
Record Response := {
  result : list SessionType;
  resp_offset : option Z
}.

(** ** The store *)

Record State := {
  sessions : list SessionType;
  sessionsLoading : bool;
  isLoadingNext : bool;
  nextOffset : option Z;
  selectedDate : option Moment;
  properties : list PropertyFilter;
  sessionRecordingId : option SessionRecordingId
}.

Definition defaults : State := {|
  sessions := [];
  sessionsLoading := false;
  isLoadingNext := false;
  nextOffset := None;
  selectedDate := None;
  properties := [];
  sessionRecordingId := None
|}.

(** The actions of the logic; [loadSessions], [loadSessionsSuccess] and
    [loadSessionsFailure] are the three that the [loaders] block creates. *)
Inductive Action :=
| loadSessions
| loadSessionsSuccess (s : list SessionType)
| loadSessionsFailure
| setNextOffset (o : option Z)
| fetchNextSessions
| appendNewSessions (s : list SessionType)
| previousDay
| nextDay
| setFilters (p : list PropertyFilter) (d : option Moment)
| setSessionRecordingId (id : SessionRecordingId)
| closeSessionPlayer.

(** ** Reducers, one per key *)

Definition sessions_reducer (state : list SessionType) (a : Action) :=
  match a with
  | loadSessionsSuccess s => s
  | appendNewSessions s => state ++ s
  | loadSessionsFailure => []
  | _ => state
  end.

Definition sessionsLoading_reducer (state : bool) (a : Action) :=
  match a with
  | loadSessions => true
  | loadSessionsSuccess _ => false
  | loadSessionsFailure => false
  | _ => state
  end.

Definition isLoadingNext_reducer (state : bool) (a : Action) :=
  match a with
  | fetchNextSessions => true
  | appendNewSessions _ => false
  | _ => state
  end.

Definition nextOffset_reducer (state : option Z) (a : Action) :=
  match a with
  | setNextOffset o => o
  | loadSessionsFailure => None
  | _ => state
  end.

Definition selectedDate_reducer (state : option Moment) (a : Action) :=
  match a with
  | setFilters _ d => d
  | _ => state
  end.

Definition properties_reducer (state : list PropertyFilter) (a : Action) :=
  match a with
  | setFilters p _ => p
  | _ => state
  end.

Definition sessionRecordingId_reducer (state : option SessionRecordingId) (a : Action) :=
  match a with
  | setSessionRecordingId id => Some id
  | closeSessionPlayer => None
  | _ => state
  end.

Definition reducer (st : State) (a : Action) : State := {|
  sessions := sessions_reducer (sessions st) a;
  sessionsLoading := sessionsLoading_reducer (sessionsLoading st) a;
  isLoadingNext := isLoadingNext_reducer (isLoadingNext st) a;
  nextOffset := nextOffset_reducer (nextOffset st) a;
  selectedDate := selectedDate_reducer (selectedDate st) a;
  properties := properties_reducer (properties st) a;
  sessionRecordingId := sessionRecordingId_reducer (sessionRecordingId st) a
|}.

(** ** Selectors *)

(** [selectedDate?.format('YYYY-MM-DD')] *)
Definition selectedDateURLparam (st : State) : option string :=
  option_map format_ymd (selectedDate st).

(** [Array.prototype.flatMap]: the callback's arrays, one after the other. *)
Fixpoint flatMap {A B : Type} (f : A -> list B) (l : list A) : list B :=
  match l with
  | [] => []
  | x :: l' => f x ++ flatMap f l'
  end.

Definition orderedSessionRecordingIds (ss : list SessionType) : list SessionRecordingId :=
  flatMap session_recording_ids ss.

(** [Array.prototype.indexOf]: the first position holding [x], or [-1]. *)
Fixpoint indexOf_from (l : list string) (x : string) (i : Z) : Z :=
  match l with
  | [] => -1
  | y :: l' => if String.eqb y x then i else indexOf_from l' x (i + 1)
  end.

Definition indexOf (l : list string) (x : string) : Z := indexOf_from l x 0.

(** [recordings[i]]: [undefined] outside the array. *)
Definition at_index (l : list string) (i : Z) : option string :=
  if i <? 0 then None else nth_error l (Z.to_nat i).

Record Navigation := {
  next : option SessionRecordingId;
  prev : option SessionRecordingId
}.

Definition sessionRecordingNavigation
    (recordings : list SessionRecordingId) (recordingId : option SessionRecordingId)
    : Navigation :=
  match recordingId with
  | None => {| next := None; prev := None |}
  | Some rid =>
      let index := indexOf recordings rid in
      let result := {| next := None; prev := None |} in
      let result :=
        if negb (index =? -1) && (index <? Z.of_nat (length recordings) - 1)
        then {| next := at_index recordings (index + 1); prev := prev result |}
        else result in
      let result :=
        if 0 <? index
        then {| next := next result; prev := at_index recordings (index - 1) |}
        else result in
      result
  end.

(** The navigation the view reads from a store. *)
Definition navigation_of (st : State) : Navigation :=
  sessionRecordingNavigation (orderedSessionRecordingIds (sessions st))
                             (sessionRecordingId st).

(** ** The URL synchroniser: encoding *)

(** What [buildURL] reads from [router.values]. *)
Record RouterValues := {
  pathname : string;
  searchParams : Params
}.

Definition empty_params : Params :=
  {| date := None; param_properties := None; param_sessionRecordingId := None |}.

Definition buildURL (router : RouterValues) (now : Moment)
    (selectedDateURLparam : option string)
    (sessionRecordingId : option SessionRecordingId) : string * Params :=
  let today := format_ymd (startOf_day now) in
  let params := empty_params in
  let properties := param_properties (searchParams router) in
  let params :=
    if negb (opt_string_eqb selectedDateURLparam (Some today))
    then {| date := selectedDateURLparam;
            param_properties := param_properties params;
            param_sessionRecordingId := param_sessionRecordingId params |}
    else params in
  let params :=
    match properties with
    | Some p => {| date := date params;
                   param_properties := Some p;
                   param_sessionRecordingId := param_sessionRecordingId params |}
    | None => params
    end in
  let params :=
    if truthy_string sessionRecordingId
    then {| date := date params;
            param_properties := param_properties params;
            param_sessionRecordingId := sessionRecordingId |}
    else params in
  (pathname router, params).

(** [actionToUrl]: the URL written after an action, from the store as the
    action's reducers left it. *)
Definition actionToUrl (router : RouterValues) (now : Moment) (st : State) (a : Action)
    : option (string * Params) :=
  match a with
  | setFilters _ _ =>
      Some (buildURL router now (selectedDateURLparam st) (sessionRecordingId st))
  | setSessionRecordingId _ =>
      Some (buildURL router now (selectedDateURLparam st) (sessionRecordingId st))
  | closeSessionPlayer =>
      Some (buildURL router now (selectedDateURLparam st) None)
  | _ => None
  end.

(** ** The run-time state of the mounted logic *)

(** What the mounted logic is given: [toParams] of [lib/utils] and its
    [props]. *)
Class Host := {
  toParams : Query -> string;
  personIds : option (list string)
}.

Context {HO : Host}.

Inductive Kind := Load | Next.

Definition Kind_eqb (a b : Kind) : bool :=
  match a, b with
  | Load, Load => true
  | Next, Next => true
  | _, _ => false
  end.

(** A call of [api.get] that has not settled: which listener made it, the
    index its listener call got from the breakpoint counter, and the URL. *)
Record Pending := {
  p_kind : Kind;
  p_call : nat;
  p_url : string
}.

(** kea gives every call of a listener the next index of that listener's
    counter; [breakpoint()] throws in a call whose index is no longer the
    counter's value.  [delayed] holds the [loadSessions] calls that sit in
    [await breakpoint(10)], their query string already built. *)
Record Runtime := {
  store : State;
  loadCalls : nat;
  nextCalls : nat;
  delayed : list (nat * string);
  inflight : list Pending
}.

Definition mounted : Runtime := {|
  store := defaults;
  loadCalls := 0%nat;
  nextCalls := 0%nat;
  delayed := [];
  inflight := []
|}.

(** [`api/insight/session/?${params}`] *)
Definition api_url (params : string) : string :=
  ("api/insight/session/?" ++ params)%string.

(** The reducers of an action, no listener. *)
Definition reduce (rt : Runtime) (a : Action) : Runtime := {|
  store := reducer (store rt) a;
  loadCalls := loadCalls rt;
  nextCalls := nextCalls rt;
  delayed := delayed rt;
  inflight := inflight rt
|}.

(** [loadSessions] up to its [await breakpoint(10)]. *)
Definition loadSessions_start (rt : Runtime) : Runtime :=
  let values := store rt in
  let call := S (loadCalls rt) in
  let params :=
    toParams (FirstPage (selectedDateURLparam values) (selectedDateURLparam values) 0
                        (match personIds with
                         | Some ids => nth_error ids 0
                         | None => Some ""%string
                         end)
                        (properties values)) in
  {| store := store rt;
     loadCalls := call;
     nextCalls := nextCalls rt;
     delayed := (call, params) :: delayed rt;
     inflight := inflight rt |}.

(** The [fetchNextSessions] listener up to its [await api.get(...)]. *)
Definition fetchNextSessions_start (rt : Runtime) : Runtime :=
  let values := store rt in
  let call := S (nextCalls rt) in
  let params :=
    toParams (NextPage (selectedDateURLparam values) (selectedDateURLparam values)
                       (nextOffset values)) in
  {| store := store rt;
     loadCalls := loadCalls rt;
     nextCalls := call;
     delayed := delayed rt;
     inflight := {| p_kind := Next; p_call := call;
                    p_url := api_url params |}
                 :: inflight rt |}.

Definition dispatch_loadSessions (rt : Runtime) : Runtime :=
  loadSessions_start (reduce rt loadSessions).

(** [setFilters]: its reducers, then its listener. *)
Definition dispatch_setFilters (rt : Runtime)
    (p : list PropertyFilter) (d : option Moment) : Runtime :=
  let rt := reduce rt (setFilters p d) in
  let rt := reduce rt (setNextOffset None) in
  dispatch_loadSessions rt.

(** Dispatching an action: its reducers run, then its listener runs up to
    its first [await]. *)
Definition dispatch (rt : Runtime) (a : Action) : Runtime :=
  match a with
  | loadSessions => dispatch_loadSessions rt
  | fetchNextSessions => fetchNextSessions_start (reduce rt fetchNextSessions)
  | setFilters p d => dispatch_setFilters rt p d
  | previousDay =>
      let rt := reduce rt previousDay in
      dispatch_setFilters rt (properties (store rt))
        (Some (add_days (-1) (moment_of (selectedDate (store rt)))))
  | nextDay =>
      let rt := reduce rt nextDay in
      dispatch_setFilters rt (properties (store rt))
        (Some (add_days 1 (moment_of (selectedDate (store rt)))))
  | _ => reduce rt a
  end.

(** ** The URL synchroniser: decoding *)

(** [params.date ? moment(params.date).startOf('day') : moment().startOf('day')] *)
Definition decoded_date (params : Params) (now : Moment) : Moment :=
  if truthy_string (date params)
  then match date params with
       | Some s => startOf_day (moment_parse s)
       | None => startOf_day now
       end
  else startOf_day now.

(** [params.properties || []] *)
Definition decoded_properties (params : Params) : list PropertyFilter :=
  match param_properties params with
  | Some p => p
  | None => []
  end.

(** The test of the first [if] of [urlToAction]. *)
Definition filters_changed (values : State) (params : Params) (newDate : Moment) : bool :=
  negb (String.eqb (JSON_stringify (decoded_properties params))
                   (JSON_stringify (properties values)))
  || match selectedDate values with
     | Some d => negb (String.eqb (format_ymd d) (format_ymd newDate))
     | None => false
     end.

(** The test of the last [if] of [urlToAction]. *)
Definition recording_changed (values : State) (params : Params) : bool :=
  truthy_string (param_sessionRecordingId params)
  && negb (opt_string_eqb (param_sessionRecordingId params) (sessionRecordingId values)).

(** A handler's call of [actions.a(...)]: the action is dispatched at once,
    and noted as called. *)
Definition call (cr : list Action * Runtime) (a : Action) : list Action * Runtime :=
  (fst cr ++ [a], dispatch (snd cr) a).

(** The ['*'] handler of [urlToAction].  It returns the actions it called,
    in order, and the run-time state they leave; [values] is read from the
    store as it is when the test runs. *)
Definition urlToAction (rt : Runtime) (params : Params) (now : Moment)
    : list Action * Runtime :=
  let newDate := decoded_date params now in
  let cr := ([], rt) in
  let cr :=
    if filters_changed (store (snd cr)) params newDate
    then call cr (setFilters (decoded_properties params) (Some newDate))
    else if (length (sessions (store (snd cr))) =? 0)%nat
         then call cr loadSessions
         else cr in
  let cr :=
    match param_sessionRecordingId params with
    | Some id =>
        if recording_changed (store (snd cr)) params
        then call cr (setSessionRecordingId id)
        else cr
    | None => cr
    end in
  cr.

(** ** Events *)

Fixpoint take_delayed (call : nat) (l : list (nat * string))
    : option (string * list (nat * string)) :=
  match l with
  | [] => None
  | (c, u) :: l' =>
      if (c =? call)%nat then Some (u, l')
      else match take_delayed call l' with
           | Some (u', rest) => Some (u', (c, u) :: rest)
           | None => None
           end
  end.

Fixpoint take_pending (k : Kind) (call : nat) (l : list Pending)
    : option (string * list Pending) :=
  match l with
  | [] => None
  | p :: l' =>
      if Kind_eqb (p_kind p) k && (p_call p =? call)%nat then Some (p_url p, l')
      else match take_pending k call l' with
           | Some (u, rest) => Some (u, p :: rest)
           | None => None
           end
  end.

(** What can happen to the mounted logic: an action is dispatched, the
    router reports a URL, the 10 ms of a [loadSessions] call run out, or a
    call of [api.get] resolves or rejects. *)
Inductive Event :=
| Dispatch (a : Action)
| UrlChanged (params : Params) (now : Moment)
| DelayElapsed (call : nat)
| Respond (k : Kind) (call : nat) (response : Response)
| Reject (k : Kind) (call : nat).

Definition with_delayed (rt : Runtime) (d : list (nat * string)) : Runtime :=
  {| store := store rt; loadCalls := loadCalls rt; nextCalls := nextCalls rt;
     delayed := d; inflight := inflight rt |}.

Definition with_inflight (rt : Runtime) (i : list Pending) : Runtime :=
  {| store := store rt; loadCalls := loadCalls rt; nextCalls := nextCalls rt;
     delayed := delayed rt; inflight := i |}.

(** [loadSessions] after [await breakpoint(10)]: the breakpoint throws in a
    call that is no longer the latest, otherwise [api.get] is called. *)
Definition loadSessions_delay_elapsed (rt : Runtime) (call : nat) : Runtime :=
  match take_delayed call (delayed rt) with
  | None => rt
  | Some (params, rest) =>
      let rt := with_delayed rt rest in
      if (call =? loadCalls rt)%nat
      then with_inflight rt
             ({| p_kind := Load; p_call := call;
                 p_url := api_url params |} :: inflight rt)
      else rt
  end.

(** [loadSessions] after [await api.get(...)]: [breakpoint()], then the
    offset, then the loader's return value goes into [loadSessionsSuccess]. *)
Definition loadSessions_resolved (rt : Runtime) (call : nat) (response : Response)
    : Runtime :=
  match take_pending Load call (inflight rt) with
  | None => rt
  | Some (_, rest) =>
      let rt := with_inflight rt rest in
      if (call =? loadCalls rt)%nat
      then
        let rt :=
          if truthy_number (resp_offset response)
          then dispatch rt (setNextOffset (resp_offset response))
          else rt in
        dispatch rt (loadSessionsSuccess (result response))
      else rt
  end.

(** [api.get] rejected inside the loader: the error is no breakpoint, so
    the loader plugin dispatches [loadSessionsFailure]. *)
Definition loadSessions_rejected (rt : Runtime) (call : nat) : Runtime :=
  match take_pending Load call (inflight rt) with
  | None => rt
  | Some (_, rest) => dispatch (with_inflight rt rest) loadSessionsFailure
  end.

(** The [fetchNextSessions] listener after [await api.get(...)]. *)
Definition fetchNextSessions_resolved (rt : Runtime) (call : nat) (response : Response)
    : Runtime :=
  match take_pending Next call (inflight rt) with
  | None => rt
  | Some (_, rest) =>
      let rt := with_inflight rt rest in
      if (call =? nextCalls rt)%nat
      then
        let rt :=
          if truthy_number (resp_offset response)
          then dispatch rt (setNextOffset (resp_offset response))
          else dispatch rt (setNextOffset None) in
        dispatch rt (appendNewSessions (result response))
      else rt
  end.

(** [api.get] rejected inside the [fetchNextSessions] listener: the
    listener has no handler, nothing is dispatched. *)
Definition fetchNextSessions_rejected (rt : Runtime) (call : nat) : Runtime :=
  match take_pending Next call (inflight rt) with
  | None => rt
  | Some (_, rest) => with_inflight rt rest
  end.

Definition step (rt : Runtime) (e : Event) : Runtime :=
  match e with
  | Dispatch a => dispatch rt a
  | UrlChanged params now => snd (urlToAction rt params now)
  | DelayElapsed call => loadSessions_delay_elapsed rt call
  | Respond Load call response => loadSessions_resolved rt call response
  | Respond Next call response => fetchNextSessions_resolved rt call response
  | Reject Load call => loadSessions_rejected rt call
  | Reject Next call => fetchNextSessions_rejected rt call
  end.

Definition run (rt : Runtime) (es : list Event) : Runtime :=
  fold_left step es rt.

(** The breakpoint counter of the listener that made a call. *)
Definition latest_call (rt : Runtime) (k : Kind) : nat :=
  match k with
  | Load => loadCalls rt
  | Next => nextCalls rt
  end.

(** [response.offset] when it is truthy, [null] otherwise. *)
Definition offset_or_null (response : Response) : option Z :=
  if truthy_number (resp_offset response) then resp_offset response else None.

(** Events that are neither a server response nor a dispatch of
    [setNextOffset] with a number; the logic itself dispatches the latter
    only when a response has arrived. *)
Definition no_response (e : Event) : bool :=
  match e with
  | Respond _ _ _ => false
  | Dispatch (setNextOffset (Some _)) => false
  | _ => true
  end.

(** The actions that the views and the router dispatch; the other actions
    are dispatched by the loader and the listeners themselves. *)
Definition operation (a : Action) : bool :=
  match a with
  | loadSessions | fetchNextSessions | previousDay | nextDay
  | setFilters _ _ | setSessionRecordingId _ | closeSessionPlayer => true
  | _ => false
  end.

(** Events in which every dispatched action is an operation. *)
Definition from_outside (e : Event) : bool :=
  match e with
  | Dispatch a => operation a
  | _ => true
  end.



(** The test by which [take_pending] recognises the request of a call. *)
Definition is_call (k : Kind) (call : nat) (p : Pending) : bool :=
  Kind_eqb (p_kind p) k && (p_call p =? call)%nat.

(** The requests in flight that belong to the latest [fetchNextSessions]
    call. *)
Definition latest_next (rt : Runtime) : list Pending :=
  filter (is_call Next (nextCalls rt)) (inflight rt).

(** What the logic keeps true of its next-page bookkeeping and its cursor. *)
Definition well_kept (rt : Runtime) : Prop :=
  Forall (fun p => p_kind p = Next -> (p_call p <= nextCalls rt)%nat) (inflight rt)
  /\ (length (latest_next rt) <= 1)%nat
  /\ (latest_next rt <> [] -> isLoadingNext (store rt) = true)
  /\ nextOffset (store rt) <> Some 0.

End SessionsTableLogic.




(** ** A concrete host, for running the logic on examples *)

Module Sample.

(** Instants as milliseconds since the epoch, UTC; [None] is moment's
    invalid date. *)
Definition ms_per_day : Z := 86400000.

Definition civil_from_days (z : Z) : Z * Z * Z :=
  let z := z + 719468 in
  let era := z / 146097 in
  let doe := z - era * 146097 in
  let yoe := (doe - doe / 1460 + doe / 36524 - doe / 146096) / 365 in
  let y := yoe + era * 400 in
  let doy := doe - (365 * yoe + yoe / 4 - yoe / 100) in
  let mp := (5 * doy + 2) / 153 in
  let d := doy - (153 * mp + 2) / 5 + 1 in
  let m := if mp <? 10 then mp + 3 else mp - 9 in
  (if m <=? 2 then y + 1 else y, m, d).

Definition days_from_civil (y m d : Z) : Z :=
  let y := if m <=? 2 then y - 1 else y in
  let era := y / 400 in
  let yoe := y - era * 400 in
  let doy := (153 * (if 2 <? m then m - 3 else m + 9) + 2) / 5 + d - 1 in
  let doe := yoe * 365 + yoe / 4 - yoe / 100 + doy in
  era * 146097 + doe - 719468.

Definition decimal (n : Z) : string := NilZero.string_of_uint (N.to_uint (Z.to_N n)).

Definition pad (width : nat) (s : string) : string :=
  (String.concat "" (repeat "0" (width - String.length s)) ++ s)%string.

Definition number_of (s : string) : option Z :=
  option_map Z.of_uint (NilEmpty.uint_of_string s).

Definition format (m : option Z) : string :=
  match m with
  | None => "Invalid date"
  | Some t =>
      let '(y, mo, d) := civil_from_days (t / ms_per_day) in
      (pad 4 (decimal y) ++ "-" ++ pad 2 (decimal mo) ++ "-" ++ pad 2 (decimal d))%string
  end.

Definition parse (s : string) : option Z :=
  match number_of (substring 0 4 s), number_of (substring 5 2 s),
        number_of (substring 8 2 s) with
  | Some y, Some mo, Some d =>
      if ((String.length s =? 10)%nat && (1 <=? mo) && (mo <=? 12) && (1 <=? d) && (d <=? 31))%bool
      then Some (days_from_civil y mo d * ms_per_day)
      else None
  | _, _, _ => None
  end.

#[export] Instance moment : MomentLib := {|
  Moment := option Z;
  moment_parse := parse;
  moment_of := fun m => match m with Some m => m | None => None end;
  startOf_day := option_map (fun t => t - t mod ms_per_day);
  format_ymd := format;
  add_days := fun n => option_map (fun t => t + n * ms_per_day)
|}.

Record filter := { key : string; value : string }.

Record session := { distinct_id : string; recording_ids : list string }.

Definition quote : string := String (Ascii.ascii_of_nat 34) EmptyString.

Definition quoted (s : string) : string := (quote ++ s ++ quote)%string.

Definition stringify_filter (f : filter) : string :=
  ("{" ++ quoted "key" ++ ":" ++ quoted (key f) ++ ","
       ++ quoted "value" ++ ":" ++ quoted (value f) ++ "}")%string.

Definition stringify (l : list filter) : string :=
  ("[" ++ String.concat "," (map stringify_filter l) ++ "]")%string.

#[export] Instance types : AppTypes := {|
  PropertyFilter := filter;
  SessionType := session;
  session_recording_ids := recording_ids;
  JSON_stringify := stringify
|}.

Definition field (name : string) (v : option string) : list string :=
  match v with
  | Some v => [(name ++ "=" ++ v)%string]
  | None => []
  end.

Definition query_string (q : Query) : string :=
  match q with
  | FirstPage from to offset who props =>
      String.concat "&"
        (field "date_from" from ++ field "date_to" to
         ++ field "offset" (Some (decimal offset))
         ++ field "distinct_id" who
         ++ field "properties" (Some (stringify props)))
  | NextPage from to offset =>
      String.concat "&"
        (field "date_from" from ++ field "date_to" to
         ++ field "offset" (option_map decimal offset))
  end.

#[export] Instance host : Host := {|
  toParams := query_string;
  personIds := None
|}.

Definition may_1_2021 : Moment := parse "2021-05-01".

Definition S1 : SessionType := {| distinct_id := "u1"; recording_ids := ["r1"; "r2"] |}.
Definition S2 : SessionType := {| distinct_id := "u2"; recording_ids := [] |}.
Definition S3 : SessionType := {| distinct_id := "u3"; recording_ids := ["r3"] |}.

(** 2021-05-01, 11:53:20 UTC *)
Definition noon : Moment := Some 1619870000000.

Definition page1 : Response := {| result := [S1; S2]; resp_offset := Some 20 |}.
Definition page2 : Response := {| result := [S3]; resp_offset := None |}.

(** Filters [{properties: [], date: 2021-05-01}], first page answered. *)
Definition first_page_loaded : Runtime :=
  run mounted [Dispatch (setFilters [] (Some may_1_2021)); DelayElapsed 1;
               Respond Load 1 page1].

(** A next-page fetch asked for right after mounting, its request in flight. *)
Definition next_requested : Runtime := step mounted (Dispatch fetchNextSessions).

(** Two overlapping [loadSessions] calls: the second is answered, the
    request of the first is still in flight. *)
Definition overlapping : Runtime :=
  run mounted [Dispatch loadSessions; DelayElapsed 1; Dispatch loadSessions;
               DelayElapsed 2; Respond Load 2 page1].

(** The page opened on a URL without parameters, one session answered. *)
Definition opened_bare : Runtime :=
  run mounted [UrlChanged empty_params noon; DelayElapsed 1;
               Respond Load 1 {| result := [S1]; resp_offset := None |}].

Definition april_url : Params :=
  {| date := Some "2021-04-01"; param_properties := None;
     param_sessionRecordingId := None |}.

Definition browser_filter : PropertyFilter := {| key := "$browser"; value := "Chrome" |}.

(** The store after [setFilters([browser_filter], 2021-05-01)] and a
    selection, dispatched on a URL that has no parameters. *)
Definition filtered : State :=
  store (run mounted [Dispatch (setFilters [browser_filter] (Some may_1_2021));
                      Dispatch (setSessionRecordingId "r1")]).

Definition bare_router : RouterValues :=
  {| pathname := "/sessions"; searchParams := empty_params |}.

(** The router on a URL whose [properties] parameter holds the filter. *)
Definition filter_router : RouterValues :=
  {| pathname := "/sessions";
     searchParams := {| date := None;
                        param_properties := Some [browser_filter];
                        param_sessionRecordingId := None |} |}.

(** A session that lists one recording id twice. *)
Definition repeated : SessionType :=
  {| distinct_id := "u4"; recording_ids := ["b"; "a"; "b"] |}.

(** A first page whose response reports offset 0. *)
Definition page_offset_zero : Response := {| result := [S1]; resp_offset := Some 0 |}.

(** A next-page fetch, then a filter change whose delay has run out. *)
Definition fetch_then_filter : list Event :=
  [Dispatch fetchNextSessions; Dispatch (setFilters [] (Some may_1_2021)); DelayElapsed 1].

(** A load whose response reports offset 0. *)
Definition load_with_offset_zero : list Event :=
  [Dispatch loadSessions; DelayElapsed 1; Respond Load 1 page_offset_zero].

End Sample.

(** * Properties *)

Section Selectors.

Context {ML : MomentLib} {AT : AppTypes}.

Lemma flatMap_app {A B : Type} (f : A -> list B) (l1 l2 : list A) :
  flatMap f (l1 ++ l2) = flatMap f l1 ++ flatMap f l2.
Proof.
  induction l1 as [|x l1 IH]; simpl.
  - reflexivity.
  - rewrite IH. apply app_assoc.
Qed.

(** C8. The ordered recording-id sequence is the concatenation, in load
    order, of the sessions' [session_recording_ids]: it equals
    [concat (map session_recording_ids ss)], and the ids of any one session
    stand, in their own order, between the ids of the sessions loaded before
    it and the ids of the sessions loaded after it. *)
Theorem orderedSessionRecordingIds_is_concat :
  (forall ss : list SessionType,
      orderedSessionRecordingIds ss = concat (map session_recording_ids ss))
  /\ (forall (before : list SessionType) (s : SessionType) (after : list SessionType),
         orderedSessionRecordingIds (before ++ s :: after)
         = orderedSessionRecordingIds before
           ++ session_recording_ids s
           ++ orderedSessionRecordingIds after).
Proof.
  split.
  - induction ss as [|s ss IH]; simpl.
    + reflexivity.
    + unfold orderedSessionRecordingIds in *. simpl. now rewrite IH.
  - intros before s after. unfold orderedSessionRecordingIds.
    rewrite flatMap_app. reflexivity.
Qed.

(** Pagination appends ids: what [appendNewSessions] adds to the sessions
    it adds to the id sequence, at the end. *)
Lemma orderedSessionRecordingIds_append (st : State) (page : list SessionType) :
  orderedSessionRecordingIds (sessions (reducer st (appendNewSessions page)))
  = orderedSessionRecordingIds (sessions st) ++ orderedSessionRecordingIds page.
Proof. simpl. apply flatMap_app. Qed.

(** *** [indexOf] *)

(** A found index points at the element. *)
Lemma indexOf_from_found (l : list string) (x : string) (i : Z) :
  0 <= i ->
  indexOf_from l x i <> -1 ->
  i <= indexOf_from l x i < i + Z.of_nat (length l)
  /\ nth_error l (Z.to_nat (indexOf_from l x i - i)) = Some x.
Proof.
  revert i. induction l as [|y l IH]; intros i Hi Hfound; simpl in *.
  - congruence.
  - destruct (String.eqb y x) eqn:E.
    + apply String.eqb_eq in E. subst y.
      replace (i - i) with 0 by lia. simpl. split; [lia | reflexivity].
    + destruct (IH (i + 1) ltac:(lia) Hfound) as [Hrange Hnth].
      split; [lia |].
      replace (Z.to_nat (indexOf_from l x (i + 1) - i))
        with (S (Z.to_nat (indexOf_from l x (i + 1) - (i + 1)))) by lia.
      exact Hnth.
Qed.

(** Without duplicates, the element at a position is found at that position. *)
Lemma indexOf_from_NoDup (l : list string) (x : string) (n : nat) (i : Z) :
  NoDup l ->
  nth_error l n = Some x ->
  indexOf_from l x i = i + Z.of_nat n.
Proof.
  revert n i. induction l as [|y l IH]; intros n i Hnd Hn.
  - destruct n; discriminate.
  - inversion Hnd as [|? ? Hnotin Hnd']; subst.
    destruct n as [|n]; simpl in *.
    + injection Hn as ->. rewrite String.eqb_refl. lia.
    + destruct (String.eqb y x) eqn:E.
      * apply String.eqb_eq in E. subst y.
        exfalso. apply Hnotin. eapply nth_error_In; eauto.
      * rewrite (IH n (i + 1) Hnd' Hn). lia.
Qed.

(** C7, amended.  Navigation symmetry for id sequences without duplicates:
    when the ordered recording ids of the loaded sessions are pairwise
    distinct and the navigation for selection [x] has a next recording [y],
    the navigation for selection [y] has [x] as its prev. *)
Theorem navigation_next_then_prev (ss : list SessionType) (x y : SessionRecordingId) :
  NoDup (orderedSessionRecordingIds ss) ->
  next (sessionRecordingNavigation (orderedSessionRecordingIds ss) (Some x)) = Some y ->
  prev (sessionRecordingNavigation (orderedSessionRecordingIds ss) (Some y)) = Some x.
Proof.
  set (recordings := orderedSessionRecordingIds ss).
  intros Hnd Hnext. unfold sessionRecordingNavigation in *.
  set (index := indexOf recordings x) in *.
  destruct (negb (index =? -1) && (index <? Z.of_nat (length recordings) - 1)) eqn:Hc.
  - apply andb_true_iff in Hc. destruct Hc as [Hfound Hlast].
    apply negb_true_iff, Z.eqb_neq in Hfound. apply Z.ltb_lt in Hlast.
    destruct (indexOf_from_found recordings x 0 ltac:(lia) Hfound) as [Hrange Hx].
    fold (indexOf recordings x) in Hrange, Hx. fold index in Hrange, Hx.
    rewrite Z.sub_0_r in Hx.
    assert (Hy : nth_error recordings (S (Z.to_nat index)) = Some y).
    { destruct (0 <? index); simpl in Hnext; unfold at_index in Hnext;
        destruct (index + 1 <? 0) eqn:E; try (apply Z.ltb_lt in E; lia);
        replace (Z.to_nat (index + 1)) with (S (Z.to_nat index)) in Hnext by lia;
        exact Hnext. }
    assert (Hiy : indexOf recordings y = index + 1).
    { unfold indexOf. rewrite (indexOf_from_NoDup _ _ _ 0 Hnd Hy). lia. }
    rewrite Hiy.
    replace (0 <? index + 1) with true by (symmetry; apply Z.ltb_lt; lia).
    destruct (negb (index + 1 =? -1)
              && (index + 1 <? Z.of_nat (length recordings) - 1)); simpl;
      unfold at_index;
      replace (index + 1 - 1) with index by lia;
      (destruct (index <? 0) eqn:E; [apply Z.ltb_lt in E; lia | exact Hx]).
  - destruct (0 <? index); simpl in Hnext; discriminate.
Qed.

(** C10. The reducers of [setSessionRecordingId] and [closeSessionPlayer]
    write the [sessionRecordingId] key and leave every other key of the
    store as it was: the session list, the cursor, the loading flags, the
    selected date and the property filters. *)
Theorem selection_reducers_frame (st : State) (id : SessionRecordingId) :
  let opened := reducer st (setSessionRecordingId id) in
  let closed := reducer st closeSessionPlayer in
  (sessionRecordingId opened = Some id
   /\ sessions opened = sessions st
   /\ nextOffset opened = nextOffset st
   /\ isLoadingNext opened = isLoadingNext st
   /\ sessionsLoading opened = sessionsLoading st
   /\ selectedDate opened = selectedDate st
   /\ properties opened = properties st)
  /\ (sessionRecordingId closed = None
      /\ sessions closed = sessions st
      /\ nextOffset closed = nextOffset st
      /\ isLoadingNext closed = isLoadingNext st
      /\ sessionsLoading closed = sessionsLoading st
      /\ selectedDate closed = selectedDate st
      /\ properties closed = properties st).
Proof. simpl. repeat split. Qed.

End Selectors.

Section Requests.

Context {ML : MomentLib} {AT : AppTypes} {HO : Host}.

(** *** The cursor under dispatch *)

Lemma nextOffset_dispatch_setFilters (rt : Runtime) p d :
  nextOffset (store (dispatch_setFilters rt p d)) = None.
Proof. reflexivity. Qed.

Lemma nextOffset_dispatch (rt : Runtime) (a : Action) :
  nextOffset (store (dispatch rt a))
  = match a with
    | setNextOffset o => o
    | loadSessionsFailure => None
    | setFilters _ _ | previousDay | nextDay => None
    | _ => nextOffset (store rt)
    end.
Proof. destruct a; reflexivity. Qed.

Lemma sessionRecordingId_dispatch (rt : Runtime) (a : Action) :
  sessionRecordingId (store (dispatch rt a))
  = sessionRecordingId_reducer (sessionRecordingId (store rt)) a.
Proof. destruct a; reflexivity. Qed.

Lemma nextOffset_urlToAction (rt : Runtime) (params : Params) (now : Moment) :
  nextOffset (store rt) = None ->
  nextOffset (store (snd (urlToAction rt params now))) = None.
Proof.
  intros H. unfold urlToAction, call. simpl.
  destruct (filters_changed (store rt) params (decoded_date params now)); simpl.
  - destruct (param_sessionRecordingId params) as [id|]; [|reflexivity].
    match goal with |- context [if ?c then _ else _] => destruct c end; reflexivity.
  - destruct (length (sessions (store rt)) =? 0)%nat; simpl;
      (destruct (param_sessionRecordingId params) as [id|]; [|exact H]);
      match goal with |- context [if ?c then _ else _] => destruct c end; exact H.
Qed.

(** One event that is no response leaves a null cursor null. *)
Lemma nextOffset_step_no_response (rt : Runtime) (e : Event) :
  no_response e = true ->
  nextOffset (store rt) = None ->
  nextOffset (store (step rt e)) = None.
Proof.
  intros Hq H. destruct e as [a | params now | call | k call r | k call]; simpl in *.
  - rewrite nextOffset_dispatch. destruct a as [| | | [o|] | | | | | | |]; try reflexivity;
      try exact H; discriminate.
  - now apply nextOffset_urlToAction.
  - unfold loadSessions_delay_elapsed.
    destruct (take_delayed call (delayed rt)) as [[u rest]|]; [|exact H].
    simpl. destruct (call =? loadCalls rt)%nat; exact H.
  - discriminate.
  - destruct k.
    + unfold loadSessions_rejected.
      destruct (take_pending Load call (inflight rt)) as [[u rest]|]; [reflexivity | exact H].
    + unfold fetchNextSessions_rejected.
      destruct (take_pending Next call (inflight rt)) as [[u rest]|]; exact H.
Qed.

Lemma nextOffset_run_no_response (es : list Event) (rt : Runtime) :
  forallb no_response es = true ->
  nextOffset (store rt) = None ->
  nextOffset (store (run rt es)) = None.
Proof.
  revert rt. induction es as [|e es IH]; intros rt Hq H; simpl in *.
  - exact H.
  - apply andb_true_iff in Hq. destruct Hq as [He Hes].
    apply IH; [exact Hes | now apply nextOffset_step_no_response].
Qed.

(** *** Committing a response *)

(** The response to the latest [loadSessions] call replaces the list and,
    when it carries a truthy offset, the cursor. *)
Lemma loadSessions_commit (rt : Runtime) (call : nat) (response : Response) url rest :
  take_pending Load call (inflight rt) = Some (url, rest) ->
  call = loadCalls rt ->
  let rt' := step rt (Respond Load call response) in
  sessions (store rt') = result response
  /\ nextOffset (store rt')
     = (if truthy_number (resp_offset response)
        then resp_offset response else nextOffset (store rt))
  /\ sessionsLoading (store rt') = false
  /\ inflight rt' = rest.
Proof.
  intros Htake Hcall. simpl. unfold loadSessions_resolved. rewrite Htake. simpl.
  subst call. rewrite Nat.eqb_refl.
  destruct (truthy_number (resp_offset response)); simpl; repeat split.
Qed.

(** The response to the latest [fetchNextSessions] call appends its page,
    replaces the cursor and clears the loading-next flag. *)
Lemma fetchNextSessions_commit (rt : Runtime) (call : nat) (response : Response) url rest :
  take_pending Next call (inflight rt) = Some (url, rest) ->
  call = nextCalls rt ->
  let rt' := step rt (Respond Next call response) in
  sessions (store rt') = sessions (store rt) ++ result response
  /\ nextOffset (store rt') = offset_or_null response
  /\ isLoadingNext (store rt') = false
  /\ inflight rt' = rest.
Proof.
  intros Htake Hcall. simpl. unfold fetchNextSessions_resolved. rewrite Htake. simpl.
  subst call. rewrite Nat.eqb_refl. unfold offset_or_null.
  destruct (truthy_number (resp_offset response)); simpl; repeat split.
Qed.

(** A response to a call that is not the latest of its listener, or to no
    call at all, leaves the store as it was. *)
Lemma stale_response_discarded (rt : Runtime) (k : Kind) (call : nat) (response : Response) :
  call <> latest_call rt k ->
  store (step rt (Respond k call response)) = store rt.
Proof.
  intros Hstale. apply Nat.eqb_neq in Hstale.
  destruct k; simpl in *.
  - unfold loadSessions_resolved.
    destruct (take_pending Load call (inflight rt)) as [[u rest]|]; [|reflexivity].
    simpl. now rewrite Hstale.
  - unfold fetchNextSessions_resolved.
    destruct (take_pending Next call (inflight rt)) as [[u rest]|]; [|reflexivity].
    simpl. now rewrite Hstale.
Qed.

(** C5. For every filter change: right after [setFilters] the cursor is
    null; it is still null after any further events among which there is no
    server response (and no dispatch of [setNextOffset] from outside the
    logic); and the response to a fetch that is then the latest of its kind
    sets it from the response's offset, to the offset when there is one and
    leaving it null otherwise. *)
Theorem cursor_null_after_setFilters
    (rt : Runtime) (p : list PropertyFilter) (d : option Moment) (es : list Event) :
  forallb no_response es = true ->
  nextOffset (store (step rt (Dispatch (setFilters p d)))) = None
  /\ let rt' := run (step rt (Dispatch (setFilters p d))) es in
     nextOffset (store rt') = None
     /\ forall k call response url rest,
          take_pending k call (inflight rt') = Some (url, rest) ->
          call = latest_call rt' k ->
          nextOffset (store (step rt' (Respond k call response)))
          = offset_or_null response.
Proof.
  intros Hes. split; [reflexivity |]. cbv zeta.
  set (rt' := run (step rt (Dispatch (setFilters p d))) es).
  assert (Hnull : nextOffset (store rt') = None).
  { apply nextOffset_run_no_response; [exact Hes | reflexivity]. }
  split; [exact Hnull |].
  intros k call response url rest Htake Hcall. destruct k.
  - destruct (loadSessions_commit rt' call response url rest Htake Hcall) as (_ & Hoff & _).
    rewrite Hoff, Hnull. reflexivity.
  - now destruct (fetchNextSessions_commit rt' call response url rest Htake Hcall)
      as (_ & Hoff & _).
Qed.

(** C6. From a state with stored cursor [c], [fetchNextSessions] puts one
    request in flight that carries [c] as its offset and raises the
    loading-next flag; when its response arrives, the page is appended to the
    end of the session list, the cursor becomes the response's offset, or
    null when the response has none, and the loading-next flag is false. *)
Theorem fetchNextSessions_success (rt : Runtime) (c : Z) (response : Response) :
  nextOffset (store rt) = Some c ->
  let rt1 := step rt (Dispatch fetchNextSessions) in
  let rt2 := step rt1 (Respond Next (nextCalls rt1) response) in
  (inflight rt1
   = {| p_kind := Next; p_call := nextCalls rt1;
        p_url := api_url (toParams (NextPage (selectedDateURLparam (store rt))
                                             (selectedDateURLparam (store rt))
                                             (Some c))) |} :: inflight rt
   /\ isLoadingNext (store rt1) = true)
  /\ sessions (store rt2) = sessions (store rt) ++ result response
  /\ nextOffset (store rt2) = offset_or_null response
  /\ isLoadingNext (store rt2) = false
  /\ inflight rt2 = inflight rt.
Proof.
  intros Hc. cbv zeta.
  split.
  - simpl. unfold fetchNextSessions_start, selectedDateURLparam. simpl.
    rewrite Hc. split; reflexivity.
  - eapply (fetchNextSessions_commit (step rt (Dispatch fetchNextSessions))).
    + simpl. rewrite Nat.eqb_refl. reflexivity.
    + reflexivity.
Qed.

(** C9, amended.  A [loadSessions] call that is no longer the latest one
    and reaches a breakpoint, at the end of its delay or when the response
    to its request arrives, is abandoned there: the store is left as it
    was, and at the end of the delay no request is issued. *)
Theorem superseded_loadSessions_abandoned (rt : Runtime) (call : nat) :
  call <> loadCalls rt ->
  (forall response, store (step rt (Respond Load call response)) = store rt)
  /\ store (step rt (DelayElapsed call)) = store rt
  /\ inflight (step rt (DelayElapsed call)) = inflight rt.
Proof.
  intros Hstale. split; [|split].
  - intros response. now apply (stale_response_discarded rt Load).
  - simpl. unfold loadSessions_delay_elapsed.
    destruct (take_delayed call (delayed rt)) as [[u rest]|]; [|reflexivity].
    simpl. destruct (call =? loadCalls rt)%nat; reflexivity.
  - simpl. unfold loadSessions_delay_elapsed.
    destruct (take_delayed call (delayed rt)) as [[u rest]|]; [|reflexivity].
    simpl. apply Nat.eqb_neq in Hstale. now rewrite Hstale.
Qed.

(** C1, amended.  A rejected request of [loadSessions] leaves the session
    list empty and the cursor null; a rejected request of
    [fetchNextSessions] dispatches nothing and leaves the whole store as it
    was, the session list and the cursor in particular. *)
Theorem rejected_requests (rt : Runtime) (k : Kind) (call : nat) url rest :
  take_pending k call (inflight rt) = Some (url, rest) ->
  let rt' := step rt (Reject k call) in
  match k with
  | Load => sessions (store rt') = [] /\ nextOffset (store rt') = None
  | Next => store rt' = store rt
            /\ sessions (store rt') = sessions (store rt)
            /\ nextOffset (store rt') = nextOffset (store rt)
  end
  /\ inflight rt' = rest.
Proof.
  intros Htake. destruct k; simpl.
  - unfold loadSessions_rejected. rewrite Htake. simpl. repeat split.
  - unfold fetchNextSessions_rejected. rewrite Htake. simpl. repeat split.
Qed.

(** C2, amended.  In every state, with a null cursor as with a stored one,
    [fetchNextSessions] puts exactly one new request in flight, and that
    request carries the stored cursor, null included, as its offset. *)
Theorem fetchNextSessions_always_requests (rt : Runtime) :
  inflight (step rt (Dispatch fetchNextSessions))
  = {| p_kind := Next; p_call := S (nextCalls rt);
       p_url := api_url (toParams (NextPage (selectedDateURLparam (store rt))
                                            (selectedDateURLparam (store rt))
                                            (nextOffset (store rt)))) |}
    :: inflight rt.
Proof. reflexivity. Qed.

End Requests.

Section UrlSync.

Context {ML : MomentLib} {AT : AppTypes} {HO : Host}.

Lemma filters_changed_iff (values : State) (params : Params) (newDate : Moment) :
  filters_changed values params newDate = true
  <-> (JSON_stringify (decoded_properties params) <> JSON_stringify (properties values)
       \/ exists d, selectedDate values = Some d /\ format_ymd d <> format_ymd newDate).
Proof.
  unfold filters_changed. rewrite orb_true_iff, negb_true_iff, String.eqb_neq.
  split; (intros [H | H]; [now left | right]).
  - destruct (selectedDate values) as [d|]; [|discriminate].
    exists d. split; [reflexivity|]. now apply String.eqb_neq, negb_true_iff.
  - destruct H as (d & -> & Hd). now apply negb_true_iff, String.eqb_neq.
Qed.

Lemma truthy_string_iff (s : option string) :
  truthy_string s = true <-> exists v, s = Some v /\ v <> ""%string.
Proof.
  destruct s as [v|]; simpl.
  - rewrite negb_true_iff, String.eqb_neq. split.
    + intros H. now exists v.
    + now intros (w & [= <-] & H).
  - split; [discriminate | now intros (w & [=] & _)].
Qed.

Lemma recording_changed_iff (values : State) (params : Params) :
  recording_changed values params = true
  <-> exists id, param_sessionRecordingId params = Some id
                 /\ id <> ""%string
                 /\ sessionRecordingId values <> Some id.
Proof.
  unfold recording_changed. rewrite andb_true_iff, truthy_string_iff, negb_true_iff.
  split.
  - intros ((id & Hid & Hne) & Hdiff). exists id. repeat split; try assumption.
    rewrite Hid in Hdiff. intros Heq. rewrite Heq in Hdiff. simpl in Hdiff.
    now rewrite String.eqb_refl in Hdiff.
  - intros (id & Hid & Hne & Hdiff). split; [now exists id|].
    rewrite Hid. destruct (sessionRecordingId values) as [cur|]; simpl; [|reflexivity].
    apply String.eqb_neq. congruence.
Qed.

(** The handler leaves the state that dispatching its calls in order leaves. *)
Lemma urlToAction_dispatches (rt : Runtime) (params : Params) (now : Moment) :
  snd (urlToAction rt params now) = fold_left dispatch (fst (urlToAction rt params now)) rt.
Proof.
  unfold urlToAction, call. simpl.
  destruct (filters_changed (store rt) params (decoded_date params now)); simpl.
  - destruct (param_sessionRecordingId params) as [id|]; [|reflexivity].
    match goal with |- context [if ?c then _ else _] => destruct c end; reflexivity.
  - destruct (length (sessions (store rt)) =? 0)%nat; simpl;
      (destruct (param_sessionRecordingId params) as [id|]; [|reflexivity]);
      match goal with |- context [if ?c then _ else _] => destruct c end; reflexivity.
Qed.

(** C3, amended.  On a URL change the handler's calls are those of the
    filter reconciliation followed by those of the recording
    reconciliation.  Filters: when the decoded property list serialises
    differently from the current one, or a date is selected and its day
    differs from the decoded day, [setFilters] is called with the decoded
    values; otherwise [loadSessions] is called when no session is loaded, and
    nothing when some are.  Recording: when the URL carries a non-empty
    recording id that is not the current selection, [setSessionRecordingId]
    is called with it, whatever the filter reconciliation did; otherwise
    nothing is called. *)
Theorem urlToAction_reconciles (rt : Runtime) (params : Params) (now : Moment) :
  let values := store rt in
  let newDate := decoded_date params now in
  let changed :=
    JSON_stringify (decoded_properties params) <> JSON_stringify (properties values)
    \/ exists d, selectedDate values = Some d /\ format_ymd d <> format_ymd newDate in
  exists filter_calls recording_calls,
    fst (urlToAction rt params now) = filter_calls ++ recording_calls
    /\ (changed ->
        filter_calls = [setFilters (decoded_properties params) (Some newDate)])
    /\ (~ changed -> sessions values = [] -> filter_calls = [loadSessions])
    /\ (~ changed -> sessions values <> [] -> filter_calls = [])
    /\ (forall id, param_sessionRecordingId params = Some id ->
                   id <> ""%string ->
                   sessionRecordingId values <> Some id ->
                   recording_calls = [setSessionRecordingId id])
    /\ (param_sessionRecordingId params = None
        \/ param_sessionRecordingId params = Some ""%string
        \/ param_sessionRecordingId params = sessionRecordingId values ->
        recording_calls = []).
Proof.
  intros values newDate changed. subst values newDate.
  set (fc := if filters_changed (store rt) params (decoded_date params now)
             then [setFilters (decoded_properties params) (Some (decoded_date params now))]
             else if (length (sessions (store rt)) =? 0)%nat then [loadSessions] else []).
  set (rc := match param_sessionRecordingId params with
             | Some id => if recording_changed (store rt) params
                          then [setSessionRecordingId id] else []
             | None => []
             end).
  exists fc, rc.
  assert (Hchanged : filters_changed (store rt) params (decoded_date params now) = true
                     <-> changed)
    by apply filters_changed_iff.
  split; [|split; [|split; [|split; [|split]]]].
  - unfold urlToAction, call, fc, rc. cbn [fst snd app].
    destruct (filters_changed (store rt) params (decoded_date params now)); cbn [fst snd app].
    + destruct (param_sessionRecordingId params) as [id|] eqn:Hid; [|reflexivity].
      unfold recording_changed. rewrite sessionRecordingId_dispatch. cbn [sessionRecordingId_reducer].
      match goal with |- context [if ?c then _ else _] => destruct c end; reflexivity.
    + destruct (length (sessions (store rt)) =? 0)%nat; cbn [fst snd app];
        (destruct (param_sessionRecordingId params) as [id|] eqn:Hid; [|reflexivity]);
        unfold recording_changed; rewrite ?sessionRecordingId_dispatch;
        cbn [sessionRecordingId_reducer];
        match goal with |- context [if ?c then _ else _] => destruct c end; reflexivity.
  - intros Hc. apply Hchanged in Hc. unfold fc. now rewrite Hc.
  - intros Hc Hnone. unfold fc.
    destruct (filters_changed (store rt) params (decoded_date params now));
      [exfalso; apply Hc; now apply Hchanged|].
    now rewrite Hnone.
  - intros Hc Hsome. unfold fc.
    destruct (filters_changed (store rt) params (decoded_date params now));
      [exfalso; apply Hc; now apply Hchanged|].
    destruct (sessions (store rt)); [congruence | reflexivity].
  - intros id Hid Hne Hdiff. unfold rc. rewrite Hid.
    assert (H : recording_changed (store rt) params = true)
      by (apply recording_changed_iff; now exists id).
    now rewrite H.
  - intros H. unfold rc.
    destruct (param_sessionRecordingId params) as [id|] eqn:Hid; [|reflexivity].
    destruct (recording_changed (store rt) params) eqn:Hrc; [|reflexivity].
    apply recording_changed_iff in Hrc. destruct Hrc as (id' & Hid' & Hne & Hdiff).
    rewrite Hid in Hid'. injection Hid' as <-.
    destruct H as [H | [H | H]]; congruence.
Qed.

(** C4, amended.  For a state with selected date [d] whose day string
    moment parses back, and a router whose [properties] search parameter
    holds the state's property filters (it is this parameter that [buildURL]
    copies): decoding the parameters that [buildURL] writes gives the day of
    [d], the state's property filters, and the state's recording id, where an
    absent or empty selection gives an absent parameter.  When [d] is today
    the date parameter is absent and decodes to today, otherwise it is the
    day string of [d].  Fed back to the state, these parameters change
    neither filters nor selection. *)
Theorem url_round_trip (st : State) (router : RouterValues) (now d : Moment) :
  selectedDate st = Some d ->
  format_ymd d <> ""%string ->
  format_ymd (startOf_day (moment_parse (format_ymd d))) = format_ymd d ->
  decoded_properties (searchParams router) = properties st ->
  let today := format_ymd (startOf_day now) in
  let params := snd (buildURL router now (selectedDateURLparam st) (sessionRecordingId st)) in
  format_ymd (decoded_date params now) = format_ymd d
  /\ date params = (if String.eqb (format_ymd d) today then None else Some (format_ymd d))
  /\ decoded_properties params = properties st
  /\ param_sessionRecordingId params
     = (if truthy_string (sessionRecordingId st) then sessionRecordingId st else None)
  /\ filters_changed st params (decoded_date params now) = false
  /\ recording_changed st params = false.
Proof.
  intros Hd Hne Hparse Hprops today params.
  assert (Hdate : date params
                  = if String.eqb (format_ymd d) today then None else Some (format_ymd d)).
  { unfold params, buildURL, selectedDateURLparam. rewrite Hd. simpl. fold today.
    destruct (String.eqb (format_ymd d) today); simpl;
      destruct (param_properties (searchParams router));
      destruct (truthy_string (sessionRecordingId st)); reflexivity. }
  assert (Hp : decoded_properties params = properties st).
  { rewrite <- Hprops. unfold params, buildURL, decoded_properties. simpl.
    destruct (param_properties (searchParams router));
      destruct (negb _); destruct (truthy_string (sessionRecordingId st)); reflexivity. }
  assert (Hid : param_sessionRecordingId params
                = if truthy_string (sessionRecordingId st)
                  then sessionRecordingId st else None).
  { unfold params, buildURL. simpl.
    destruct (param_properties (searchParams router));
      destruct (negb _); destruct (truthy_string (sessionRecordingId st)); reflexivity. }
  assert (Hday : format_ymd (decoded_date params now) = format_ymd d).
  { unfold decoded_date. rewrite Hdate.
    destruct (String.eqb (format_ymd d) today) eqn:E; simpl.
    - apply String.eqb_eq in E. now rewrite E.
    - apply String.eqb_neq in Hne. rewrite Hne. simpl. exact Hparse. }
  repeat split; try assumption.
  - unfold filters_changed. rewrite Hp, Hd, Hday, !String.eqb_refl. reflexivity.
  - unfold recording_changed. rewrite Hid.
    destruct (truthy_string (sessionRecordingId st)) eqn:E; [|reflexivity].
    rewrite E. simpl. destruct (sessionRecordingId st) as [id|]; simpl.
    + now rewrite String.eqb_refl.
    + reflexivity.
Qed.

End UrlSync.

Section NavigationEdges.

Context {ML : MomentLib} {AT : AppTypes}.

Lemma indexOf_from_absent (l : list string) (x : string) (i : Z) :
  ~ In x l -> indexOf_from l x i = -1.
Proof.
  revert i. induction l as [|y l IH]; intros i Hnotin; simpl.
  - reflexivity.
  - destruct (String.eqb y x) eqn:E.
    + apply String.eqb_eq in E. exfalso. apply Hnotin. now left.
    + apply IH. intros Hin. apply Hnotin. now right.
Qed.

(** [indexOf] stops at the first occurrence. *)
Lemma indexOf_from_first (pre post : list string) (x : string) (i : Z) :
  ~ In x pre ->
  indexOf_from (pre ++ x :: post) x i = i + Z.of_nat (length pre).
Proof.
  revert i. induction pre as [|y pre IH]; intros i Hnotin; simpl.
  - rewrite String.eqb_refl. lia.
  - destruct (String.eqb y x) eqn:E.
    + apply String.eqb_eq in E. exfalso. apply Hnotin. now left.
    + rewrite IH by (intros Hin; apply Hnotin; now right). lia.
Qed.

Lemma nth_error_last (l : list string) :
  l <> [] -> nth_error l (length l - 1) = hd_error (rev l).
Proof.
  intros Hne. rewrite <- (rev_involutive l) at 1 2.
  destruct (rev l) as [|a r] eqn:E.
  - exfalso. apply Hne. rewrite <- (rev_involutive l), E. reflexivity.
  - simpl. rewrite length_app, nth_error_app2; rewrite length_rev; simpl.
    + replace (length r + 1 - 1 - length r)%nat with 0%nat by lia. reflexivity.
    + lia.
Qed.

(** X1.  An id is in the ordered sequence exactly when a loaded session lists it. *)
Theorem orderedSessionRecordingIds_In (ss : list SessionType) (id : SessionRecordingId) :
  In id (orderedSessionRecordingIds ss)
  <-> exists s, In s ss /\ In id (session_recording_ids s).
Proof.
  unfold orderedSessionRecordingIds. induction ss as [|s ss IH]; simpl.
  - split; [intros [] | intros (s & [] & _)].
  - rewrite in_app_iff, IH. split.
    + intros [H | (s' & Hs' & Hid)].
      * exists s. split; [now left | exact H].
      * exists s'. split; [now right | exact Hid].
    + intros (s' & [<- | Hs'] & Hid); [now left | right; now exists s'].
Qed.

(** X2.  Without a selection, or with a selection that is not among the
    recordings, the navigation has neither [next] nor [prev]. *)
Theorem navigation_absent
    (recordings : list SessionRecordingId) (recordingId : option SessionRecordingId) :
  (recordingId = None \/ exists x, recordingId = Some x /\ ~ In x recordings) ->
  sessionRecordingNavigation recordings recordingId = {| next := None; prev := None |}.
Proof.
  intros [-> | (x & -> & Hnotin)]; [reflexivity |].
  unfold sessionRecordingNavigation, indexOf.
  rewrite (indexOf_from_absent recordings x 0 Hnotin). reflexivity.
Qed.

(** Settles the integer comparisons of the goal that [lia] can decide. *)
Ltac settle_comparisons :=
  repeat match goal with
    | |- context [?a <? ?b] =>
        first [ replace (a <? b) with true by (symmetry; apply Z.ltb_lt; lia)
              | replace (a <? b) with false by (symmetry; apply Z.ltb_ge; lia) ]
    | |- context [?a =? ?b] =>
        first [ replace (a =? b) with true by (symmetry; apply Z.eqb_eq; lia)
              | replace (a =? b) with false by (symmetry; apply Z.eqb_neq; lia) ]
    end.

(** X3.  The navigation is relative to the first occurrence of the selection:
    [next] is the recording right after it, absent when it is the last one;
    [prev] is the recording right before it, absent when it is the first. *)
Theorem navigation_at_first_occurrence
    (before after : list SessionRecordingId) (x : SessionRecordingId) :
  ~ In x before ->
  sessionRecordingNavigation (before ++ x :: after) (Some x)
  = {| next := hd_error after; prev := hd_error (rev before) |}.
Proof.
  intros Hnotin. unfold sessionRecordingNavigation, indexOf, SessionRecordingId in *.
  rewrite (indexOf_from_first before after x 0 Hnotin), Z.add_0_l.
  assert (Hnext : at_index (before ++ x :: after) (Z.of_nat (length before) + 1)
                  = hd_error after).
  { unfold at_index. settle_comparisons.
    replace (Z.to_nat (Z.of_nat (length before) + 1)) with (length before + 1)%nat by lia.
    rewrite nth_error_app2 by lia.
    replace (length before + 1 - length before)%nat with 1%nat by lia.
    destruct after; reflexivity. }
  assert (Hprev : before <> [] ->
                  at_index (before ++ x :: after) (Z.of_nat (length before) - 1)
                  = hd_error (rev before)).
  { intros Hne.
    assert (0 < length before)%nat by (destruct before; [congruence | simpl; lia]).
    unfold at_index. settle_comparisons.
    replace (Z.to_nat (Z.of_nat (length before) - 1)) with (length before - 1)%nat by lia.
    rewrite nth_error_app1 by lia. now apply nth_error_last. }
  rewrite Hnext, length_app.
  destruct before as [|b before'].
  - destruct after; cbn [length hd_error rev]; settle_comparisons; reflexivity.
  - rewrite Hprev by discriminate.
    destruct after; cbn [length hd_error]; settle_comparisons; reflexivity.
Qed.

(** X4.  The converse symmetry, for id sequences without duplicates: when the
    navigation for selection [x] has a prev [y], the navigation for
    selection [y] has [x] as its next. *)
Theorem navigation_prev_then_next
    (recordings : list SessionRecordingId) (x y : SessionRecordingId) :
  NoDup recordings ->
  prev (sessionRecordingNavigation recordings (Some x)) = Some y ->
  next (sessionRecordingNavigation recordings (Some y)) = Some x.
Proof.
  intros Hnd Hprev. unfold sessionRecordingNavigation, SessionRecordingId in *.
  set (index := indexOf recordings x) in *.
  assert (Hpos : 0 < index).
  { destruct (0 <? index) eqn:E; [now apply Z.ltb_lt in E |].
    destruct (negb (index =? -1) && (index <? Z.of_nat (length recordings) - 1));
      simpl in Hprev; discriminate. }
  assert (Hy : at_index recordings (index - 1) = Some y).
  { replace (0 <? index) with true in Hprev by (symmetry; now apply Z.ltb_lt).
    destruct (negb (index =? -1) && (index <? Z.of_nat (length recordings) - 1));
      simpl in Hprev; exact Hprev. }
  destruct (indexOf_from_found recordings x 0 ltac:(lia)) as [Hrange Hx].
  { fold (indexOf recordings x). fold index. lia. }
  fold (indexOf recordings x) in Hrange, Hx. fold index in Hrange, Hx.
  rewrite Z.sub_0_r in Hx.
  unfold at_index in Hy.
  replace (index - 1 <? 0) with false in Hy by (symmetry; apply Z.ltb_ge; lia).
  assert (Hiy : indexOf recordings y = index - 1).
  { unfold indexOf. rewrite (indexOf_from_NoDup _ _ _ 0 Hnd Hy). lia. }
  rewrite Hiy.
  replace (negb (index - 1 =? -1)) with true
    by (symmetry; apply negb_true_iff, Z.eqb_neq; lia).
  replace (index - 1 <? Z.of_nat (length recordings) - 1) with true
    by (symmetry; apply Z.ltb_lt; lia).
  simpl andb. cbv iota.
  assert (Hgoal : at_index recordings (index - 1 + 1) = Some x).
  { unfold at_index. replace (index - 1 + 1) with index by lia.
    replace (index <? 0) with false by (symmetry; apply Z.ltb_ge; lia). exact Hx. }
  destruct (0 <? index - 1); simpl; exact Hgoal.
Qed.

Lemma indexOf_from_present (l : list string) (x : string) (i : Z) :
  0 <= i -> In x l -> indexOf_from l x i <> -1.
Proof.
  revert i. induction l as [|y l IH]; intros i Hi Hin; simpl.
  - destruct Hin.
  - destruct (String.eqb y x) eqn:E; [lia |].
    apply IH; [lia |]. destruct Hin as [-> | Hin]; [|exact Hin].
    now rewrite String.eqb_refl in E.
Qed.

Lemma indexOf_from_app (l page : list string) (x : string) (i : Z) :
  In x l -> indexOf_from (l ++ page) x i = indexOf_from l x i.
Proof.
  revert i. induction l as [|y l IH]; intros i Hin; simpl.
  - destruct Hin.
  - destruct (String.eqb y x) eqn:E; [reflexivity |].
    apply IH. destruct Hin as [-> | Hin]; [|exact Hin].
    now rewrite String.eqb_refl in E.
Qed.

(** X5.  Pagination keeps the navigation of a selection that is already in the
    list: after [appendNewSessions] its [prev] is the same, and a [next] it
    had is the same. *)
Theorem navigation_stable_under_append
    (st : State) (page : list SessionType) (x : SessionRecordingId) :
  In x (orderedSessionRecordingIds (sessions st)) ->
  let st' := reducer st (appendNewSessions page) in
  prev (sessionRecordingNavigation (orderedSessionRecordingIds (sessions st')) (Some x))
  = prev (sessionRecordingNavigation (orderedSessionRecordingIds (sessions st)) (Some x))
  /\ forall y,
       next (sessionRecordingNavigation (orderedSessionRecordingIds (sessions st)) (Some x))
       = Some y ->
       next (sessionRecordingNavigation (orderedSessionRecordingIds (sessions st')) (Some x))
       = Some y.
Proof.
  intros Hin st'. unfold st'. rewrite orderedSessionRecordingIds_append.
  set (l := orderedSessionRecordingIds (sessions st)) in *.
  set (l' := orderedSessionRecordingIds page).
  unfold sessionRecordingNavigation, indexOf, SessionRecordingId in *.
  rewrite (indexOf_from_app l l' x 0 Hin).
  set (index := indexOf_from l x 0).
  assert (Hfound : index <> -1) by (apply indexOf_from_present; [lia | exact Hin]).
  destruct (indexOf_from_found l x 0 ltac:(lia) Hfound) as [Hrange _].
  fold index in Hrange.
  assert (Hat : forall j, 0 <= j < Z.of_nat (length l) ->
                          at_index (l ++ l') j = at_index l j).
  { intros j Hj. unfold at_index.
    replace (j <? 0) with false by (symmetry; apply Z.ltb_ge; lia).
    apply nth_error_app1. lia. }
  split.
  - destruct (0 <? index) eqn:Epos.
    + apply Z.ltb_lt in Epos.
      destruct (negb (index =? -1) && (index <? Z.of_nat (length (l ++ l')) - 1));
        destruct (negb (index =? -1) && (index <? Z.of_nat (length l) - 1));
        simpl; apply Hat; lia.
    + destruct (negb (index =? -1) && (index <? Z.of_nat (length (l ++ l')) - 1));
        destruct (negb (index =? -1) && (index <? Z.of_nat (length l) - 1));
        reflexivity.
  - intros y Hnext.
    destruct (negb (index =? -1) && (index <? Z.of_nat (length l) - 1)) eqn:Ec.
    + apply andb_true_iff in Ec. destruct Ec as [_ Hlt]. apply Z.ltb_lt in Hlt.
      replace (negb (index =? -1) && (index <? Z.of_nat (length (l ++ l')) - 1))
        with true.
      * destruct (0 <? index); simpl in *; rewrite Hat by lia; exact Hnext.
      * symmetry. apply andb_true_iff. split.
        -- now apply negb_true_iff, Z.eqb_neq.
        -- apply Z.ltb_lt. rewrite length_app. lia.
    + destruct (0 <? index); simpl in Hnext; discriminate.
Qed.

End NavigationEdges.

Section RequestFlows.

Context {ML : MomentLib} {AT : AppTypes} {HO : Host}.

(** Settles the comparisons of call indices that [lia] can decide. *)
Ltac settle_calls :=
  repeat match goal with
    | |- context [Nat.eqb ?a ?b] =>
        first [ replace (Nat.eqb a b) with true by (symmetry; apply Nat.eqb_eq; lia)
              | replace (Nat.eqb a b) with false by (symmetry; apply Nat.eqb_neq; lia) ]
    end.

(** *** What each handler does, by case of its breakpoint *)

Lemma loadSessions_delay_elapsed_latest (rt : Runtime) (call : nat) params rest :
  take_delayed call (delayed rt) = Some (params, rest) ->
  call = loadCalls rt ->
  loadSessions_delay_elapsed rt call
  = with_inflight (with_delayed rt rest)
      ({| p_kind := Load; p_call := call; p_url := api_url params |} :: inflight rt).
Proof.
  intros Htake ->. unfold loadSessions_delay_elapsed. rewrite Htake.
  cbn [with_delayed loadCalls inflight]. now rewrite Nat.eqb_refl.
Qed.


Lemma loadSessions_resolved_latest (rt : Runtime) (call : nat) (response : Response) url rest :
  take_pending Load call (inflight rt) = Some (url, rest) ->
  call = loadCalls rt ->
  loadSessions_resolved rt call response
  = reduce (if truthy_number (resp_offset response)
            then reduce (with_inflight rt rest) (setNextOffset (resp_offset response))
            else with_inflight rt rest)
           (loadSessionsSuccess (result response)).
Proof.
  intros Htake ->. unfold loadSessions_resolved. rewrite Htake.
  cbn [with_inflight loadCalls]. now rewrite Nat.eqb_refl.
Qed.

Lemma fetchNextSessions_resolved_latest
    (rt : Runtime) (call : nat) (response : Response) url rest :
  take_pending Next call (inflight rt) = Some (url, rest) ->
  call = nextCalls rt ->
  fetchNextSessions_resolved rt call response
  = reduce (reduce (with_inflight rt rest) (setNextOffset (offset_or_null response)))
           (appendNewSessions (result response)).
Proof.
  intros Htake ->. unfold fetchNextSessions_resolved, offset_or_null. rewrite Htake.
  cbn [with_inflight nextCalls]. rewrite Nat.eqb_refl.
  now destruct (truthy_number (resp_offset response)).
Qed.

Lemma fetchNextSessions_resolved_stale
    (rt : Runtime) (call : nat) (response : Response) url rest :
  take_pending Next call (inflight rt) = Some (url, rest) ->
  call <> nextCalls rt ->
  fetchNextSessions_resolved rt call response = with_inflight rt rest.
Proof.
  intros Htake Hstale. unfold fetchNextSessions_resolved. rewrite Htake.
  cbn [with_inflight nextCalls]. apply Nat.eqb_neq in Hstale. now rewrite Hstale.
Qed.

(** Brings a run of dispatches down to a record, and looks calls up in
    the lists at hand. *)
Ltac tidy :=
  cbn [run fold_left step dispatch dispatch_loadSessions dispatch_setFilters reduce
       loadSessions_start fetchNextSessions_start with_delayed with_inflight
       take_delayed take_pending Kind_eqb andb fst snd
       store loadCalls nextCalls delayed inflight p_kind p_call p_url].

Ltac look_up := tidy; settle_calls; tidy; try reflexivity; try lia.



(** X8.  Two next-page fetches in a row: whichever order the two responses
    arrive in, only the page of the second fetch is appended. *)
Theorem overlapping_next_page_fetches (rt : Runtime) (r1 r2 : Response) :
  let c := nextCalls rt in
  let asked := run rt [Dispatch fetchNextSessions; Dispatch fetchNextSessions] in
  let in_order := run asked [Respond Next (S c) r1; Respond Next (S (S c)) r2] in
  let reversed := run asked [Respond Next (S (S c)) r2; Respond Next (S c) r1] in
  (sessions (store in_order) = sessions (store rt) ++ result r2
   /\ nextOffset (store in_order) = offset_or_null r2
   /\ isLoadingNext (store in_order) = false
   /\ inflight in_order = inflight rt)
  /\ (sessions (store reversed) = sessions (store rt) ++ result r2
      /\ nextOffset (store reversed) = offset_or_null r2
      /\ isLoadingNext (store reversed) = false
      /\ inflight reversed = inflight rt).
Proof.
  destruct rt as [st lc nc dl fl]. cbv zeta. tidy. split.
  - erewrite (fetchNextSessions_resolved_stale _ (S nc) r1); [| look_up | look_up]. tidy.
    erewrite (fetchNextSessions_resolved_latest _ (S (S nc)) r2); [| look_up | look_up].
    tidy. repeat split.
  - erewrite (fetchNextSessions_resolved_latest _ (S (S nc)) r2); [| look_up | look_up].
    tidy.
    erewrite (fetchNextSessions_resolved_stale _ (S nc) r1); [| look_up | look_up]. tidy.
    repeat split.
Qed.


(** X10.  A reload by [loadSessions] alone replaces the list; a response without
    an offset leaves the stored cursor as it was. *)
Theorem reload_keeps_cursor_without_offset (rt : Runtime) (response : Response) :
  let call := S (loadCalls rt) in
  let rt' := run rt [Dispatch loadSessions; DelayElapsed call; Respond Load call response] in
  sessions (store rt') = result response
  /\ nextOffset (store rt')
     = (if truthy_number (resp_offset response)
        then resp_offset response else nextOffset (store rt))
  /\ inflight rt' = inflight rt.
Proof.
  destruct rt as [st lc nc dl fl]. cbv zeta. tidy.
  erewrite (loadSessions_delay_elapsed_latest _ (S lc)); [| look_up | look_up]. tidy.
  erewrite (loadSessions_resolved_latest _ (S lc)); [| look_up | look_up]. tidy.
  destruct (truthy_number (resp_offset response)); repeat split.
Qed.


End RequestFlows.

Section Invariants.

Context {ML : MomentLib} {AT : AppTypes} {HO : Host}.

Lemma Kind_eqb_eq (a b : Kind) : Kind_eqb a b = true <-> a = b.
Proof. destruct a, b; simpl; split; congruence. Qed.

Lemma is_call_of (k' : Kind) (c' : nat) (p : Pending) :
  is_call k' c' p = Kind_eqb k' (p_kind p) && (c' =? p_call p)%nat.
Proof.
  unfold is_call. rewrite (Nat.eqb_sym c'). now destruct k', (p_kind p).
Qed.

(** [take_pending] removes one request of the call it looks for and keeps
    the others. *)
Lemma take_pending_filter (k : Kind) (call : nat) (l : list Pending) url rest :
  take_pending k call l = Some (url, rest) ->
  (forall k' c', length (filter (is_call k' c') rest)
                 = if Kind_eqb k' k && (c' =? call)%nat
                   then pred (length (filter (is_call k' c') l))
                   else length (filter (is_call k' c') l))
  /\ (forall P : Pending -> Prop, Forall P l -> Forall P rest).
Proof.
  revert url rest. induction l as [|p l IH]; intros url rest Htake; [discriminate |].
  simpl in Htake. destruct (Kind_eqb (p_kind p) k && (p_call p =? call)%nat) eqn:Ep.
  - injection Htake as <- <-.
    apply andb_true_iff in Ep. destruct Ep as [Ek Ec].
    apply Kind_eqb_eq in Ek. apply Nat.eqb_eq in Ec. split.
    + intros k' c'. cbn [filter]. rewrite (is_call_of k' c' p), Ek, Ec.
      now destruct (Kind_eqb k' k && (c' =? call)%nat).
    + intros P HP. now inversion HP.
  - destruct (take_pending k call l) as [[u r]|] eqn:El; [|discriminate].
    injection Htake as <- <-. destruct (IH u r eq_refl) as (Hlen & Hall).
    split.
    + intros k' c'. cbn [filter]. specialize (Hlen k' c').
      destruct (is_call k' c' p) eqn:Eq; [|exact Hlen]. cbn [length].
      destruct (Kind_eqb k' k && (c' =? call)%nat) eqn:Ekc; [|now rewrite Hlen].
      exfalso. rewrite is_call_of in Eq.
      apply andb_true_iff in Ekc. destruct Ekc as [Ek Ec].
      apply andb_true_iff in Eq. destruct Eq as [Ek' Ec'].
      apply Kind_eqb_eq in Ek, Ek'. apply Nat.eqb_eq in Ec, Ec'.
      rewrite <- Ek', <- Ec', Ek, Ec, Nat.eqb_refl in Ep.
      now destruct k.
    + intros P HP. inversion HP; subst. constructor; [assumption | now apply Hall].
Qed.

(** The operations other than [fetchNextSessions] leave the next-page
    bookkeeping alone, and the cursor null or as it was. *)
Lemma dispatch_operation_frame (rt : Runtime) (a : Action) :
  operation a = true ->
  a <> fetchNextSessions ->
  inflight (dispatch rt a) = inflight rt
  /\ nextCalls (dispatch rt a) = nextCalls rt
  /\ isLoadingNext (store (dispatch rt a)) = isLoadingNext (store rt)
  /\ (nextOffset (store (dispatch rt a)) = None
      \/ nextOffset (store (dispatch rt a)) = nextOffset (store rt)).
Proof.
  intros Hop Hother. destruct a; try discriminate; try congruence;
    repeat split; solve [now left | now right].
Qed.

Lemma well_kept_frame (rt rt' : Runtime) :
  well_kept rt ->
  inflight rt' = inflight rt ->
  nextCalls rt' = nextCalls rt ->
  isLoadingNext (store rt') = isLoadingNext (store rt) ->
  (nextOffset (store rt') = None \/ nextOffset (store rt') = nextOffset (store rt)) ->
  well_kept rt'.
Proof.
  intros (Hb & Hone & Hflag & Hcur) Hin Hnc Hfl Hoff.
  unfold well_kept, latest_next. rewrite Hin, Hnc, Hfl.
  repeat split; try assumption.
  destruct Hoff as [-> | ->]; [discriminate | assumption].
Qed.

Lemma well_kept_dispatch (rt : Runtime) (a : Action) :
  operation a = true -> well_kept rt -> well_kept (dispatch rt a).
Proof.
  intros Hop Hk.
  assert (Hcases : a = fetchNextSessions \/ a <> fetchNextSessions)
    by (destruct a; (now left) || (right; discriminate)).
  destruct Hcases as [-> | Hother].
  - destruct Hk as (Hb & Hone & Hflag & Hcur).
    assert (Hold : filter (is_call Next (S (nextCalls rt))) (inflight rt) = []).
    { clear - Hb. induction (inflight rt) as [|p l IH]; [reflexivity |].
      inversion Hb as [|? ? Hp Hl]; subst. simpl. rewrite (IH Hl).
      unfold is_call. destruct (p_kind p) eqn:Ek; simpl; [reflexivity |].
      specialize (Hp eq_refl).
      replace (p_call p =? S (nextCalls rt))%nat with false
        by (symmetry; apply Nat.eqb_neq; lia).
      reflexivity. }
    unfold well_kept, latest_next. simpl. unfold is_call at 1 2 3. simpl.
    rewrite Nat.eqb_refl. fold (is_call Next (S (nextCalls rt))). rewrite Hold. simpl.
    repeat split; try assumption; try lia.
    constructor; [simpl; lia |].
    eapply Forall_impl; [|exact Hb]. simpl. intros p Hp Hkind. specialize (Hp Hkind). lia.
  - destruct (dispatch_operation_frame rt a Hop Hother) as (Hin & Hnc & Hfl & Hoff).
    now apply (well_kept_frame rt).
Qed.

Lemma urlToAction_calls_operations (rt : Runtime) (params : Params) (now : Moment) :
  forallb operation (fst (urlToAction rt params now)) = true.
Proof.
  unfold urlToAction, call. cbn [fst snd app].
  destruct (filters_changed (store rt) params (decoded_date params now)); cbn [fst snd app].
  - destruct (param_sessionRecordingId params) as [id|]; [|reflexivity].
    match goal with |- context [if ?c then _ else _] => destruct c end; reflexivity.
  - destruct (length (sessions (store rt)) =? 0)%nat; cbn [fst snd app];
      (destruct (param_sessionRecordingId params) as [id|]; [|reflexivity]);
      match goal with |- context [if ?c then _ else _] => destruct c end; reflexivity.
Qed.

Lemma well_kept_dispatches (calls : list Action) (rt : Runtime) :
  forallb operation calls = true -> well_kept rt -> well_kept (fold_left dispatch calls rt).
Proof.
  revert rt. induction calls as [|a calls IH]; intros rt Hops Hk; simpl in *.
  - exact Hk.
  - apply andb_true_iff in Hops. destruct Hops as [Ha Hcalls].
    apply IH; [exact Hcalls | now apply well_kept_dispatch].
Qed.

Lemma truthy_number_not_zero (o : option Z) :
  truthy_number o = true -> o <> Some 0.
Proof.
  destruct o as [z|]; simpl; [|discriminate].
  intros H [= ->]. discriminate.
Qed.

Lemma well_kept_step (rt : Runtime) (e : Event) :
  from_outside e = true -> well_kept rt -> well_kept (step rt e).
Proof.
  intros He Hk. destruct e as [a | params now | call | k call r | k call]; simpl in *.
  - now apply well_kept_dispatch.
  - rewrite urlToAction_dispatches.
    apply well_kept_dispatches; [apply urlToAction_calls_operations | exact Hk].
  - unfold loadSessions_delay_elapsed.
    destruct (take_delayed call (delayed rt)) as [[u rest]|]; [|exact Hk].
    cbn [with_delayed loadCalls inflight].
    destruct (call =? loadCalls rt)%nat.
    + destruct Hk as (Hb & Hone & Hflag & Hcur).
      unfold well_kept, latest_next. simpl.
      repeat split; try assumption.
      constructor; [simpl; discriminate | exact Hb].
    + apply (well_kept_frame rt); [exact Hk | reflexivity | reflexivity | reflexivity | now right].
  - destruct Hk as (Hb & Hone & Hflag & Hcur). destruct k.
    + unfold loadSessions_resolved.
      destruct (take_pending Load call (inflight rt)) as [[u rest]|] eqn:Htake;
        [|repeat split; assumption].
      destruct (take_pending_filter _ _ _ _ _ Htake) as (Hlen & Hall).
      assert (Hsame : filter (is_call Next (nextCalls rt)) rest <> []
                      -> latest_next rt <> []).
      { unfold latest_next. specialize (Hlen Next (nextCalls rt)). simpl in Hlen.
        intros Hne Habs. rewrite Habs in Hlen. simpl in Hlen.
        apply Hne. now apply length_zero_iff_nil. }
      assert (Hle : (length (filter (is_call Next (nextCalls rt)) rest) <= 1)%nat).
      { specialize (Hlen Next (nextCalls rt)). simpl in Hlen. unfold latest_next in Hone.
        lia. }
      cbn [with_inflight loadCalls]. destruct (call =? loadCalls rt)%nat.
      * destruct (truthy_number (resp_offset r)) eqn:Et;
          unfold well_kept, latest_next; simpl;
          (repeat split; [now apply Hall | exact Hle | intros H; apply Hflag; now apply Hsame |]);
          [now apply truthy_number_not_zero | exact Hcur].
      * unfold well_kept, latest_next; simpl.
        repeat split; [now apply Hall | exact Hle | intros H; apply Hflag; now apply Hsame
                      | exact Hcur].
    + unfold fetchNextSessions_resolved.
      destruct (take_pending Next call (inflight rt)) as [[u rest]|] eqn:Htake;
        [|repeat split; assumption].
      destruct (take_pending_filter _ _ _ _ _ Htake) as (Hlen & Hall).
      specialize (Hlen Next (nextCalls rt)). simpl in Hlen.
      cbn [with_inflight nextCalls]. rewrite (Nat.eqb_sym call).
      unfold latest_next in Hone, Hflag.
      destruct (nextCalls rt =? call)%nat eqn:Ec.
      * apply Nat.eqb_eq in Ec. subst call.
        assert (Hnone : filter (is_call Next (nextCalls rt)) rest = [])
          by (apply length_zero_iff_nil; lia).
        destruct (truthy_number (resp_offset r)) eqn:Et;
          unfold well_kept, latest_next; simpl; rewrite Hnone;
          (repeat split; [now apply Hall | simpl; lia | congruence |]);
          [now apply truthy_number_not_zero | discriminate].
      * unfold well_kept, latest_next; simpl.
        repeat split; [now apply Hall | lia | | exact Hcur].
        intros H. apply Hflag. intros Habs. apply H.
        apply length_zero_iff_nil. rewrite Hlen, Habs. reflexivity.
  - destruct Hk as (Hb & Hone & Hflag & Hcur). destruct k.
    + unfold loadSessions_rejected.
      destruct (take_pending Load call (inflight rt)) as [[u rest]|] eqn:Htake;
        [|repeat split; assumption].
      destruct (take_pending_filter _ _ _ _ _ Htake) as (Hlen & Hall).
      specialize (Hlen Next (nextCalls rt)). simpl in Hlen.
      unfold latest_next in Hone, Hflag.
      unfold well_kept, latest_next; simpl.
      repeat split; [now apply Hall | lia | | discriminate].
      intros H. apply Hflag. intros Habs. apply H.
      apply length_zero_iff_nil. rewrite Hlen, Habs. reflexivity.
    + unfold fetchNextSessions_rejected.
      destruct (take_pending Next call (inflight rt)) as [[u rest]|] eqn:Htake;
        [|repeat split; assumption].
      destruct (take_pending_filter _ _ _ _ _ Htake) as (Hlen & Hall).
      specialize (Hlen Next (nextCalls rt)). simpl in Hlen.
      unfold latest_next in Hone, Hflag.
      unfold well_kept, latest_next; simpl.
      repeat split; [now apply Hall | | | exact Hcur].
      * destruct (nextCalls rt =? call)%nat; lia.
      * intros H. apply Hflag. intros Habs. apply H.
        apply length_zero_iff_nil. rewrite Hlen, Habs.
        destruct (nextCalls rt =? call)%nat; reflexivity.
Qed.

Lemma well_kept_run (es : list Event) (rt : Runtime) :
  forallb from_outside es = true -> well_kept rt -> well_kept (run rt es).
Proof.
  revert rt. induction es as [|e es IH]; intros rt Hes Hk; simpl in *.
  - exact Hk.
  - apply andb_true_iff in Hes. destruct Hes as [He Hes].
    apply IH; [exact Hes | now apply well_kept_step].
Qed.

Lemma well_kept_mounted : well_kept mounted.
Proof.
  unfold well_kept, latest_next. simpl. repeat split; try constructor; try lia; congruence.
Qed.

(** X12.  In every state the mounted logic reaches through operations, URL
    changes, timers, responses and failures: while the request of the latest
    [fetchNextSessions] call is in flight, [isLoadingNext] is true, and at
    most one request in flight belongs to that call. *)
Theorem latest_fetch_in_flight_is_loading (es : list Event) :
  forallb from_outside es = true ->
  let rt := run mounted es in
  (forall p, In p (inflight rt) -> p_kind p = Next -> p_call p = nextCalls rt ->
             isLoadingNext (store rt) = true)
  /\ (length (latest_next rt) <= 1)%nat.
Proof.
  intros Hes rt.
  destruct (well_kept_run es mounted Hes well_kept_mounted) as (_ & Hone & Hflag & _).
  split; [|exact Hone].
  intros p Hin Hkind Hcall. apply Hflag. intros Habs.
  assert (Hp : In p (latest_next (run mounted es))).
  { unfold latest_next. apply filter_In. split; [exact Hin |].
    unfold is_call. fold rt. rewrite Hkind, Hcall, Nat.eqb_refl. reflexivity. }
  rewrite Habs in Hp. destruct Hp.
Qed.

(** X13.  In every such state the stored cursor is null or a non-zero offset: an
    offset of 0 in a response is stored as null. *)
Theorem stored_cursor_never_zero (es : list Event) :
  forallb from_outside es = true ->
  nextOffset (store (run mounted es)) <> Some 0.
Proof.
  intros Hes.
  now destruct (well_kept_run es mounted Hes well_kept_mounted) as (_ & _ & _ & Hcur).
Qed.

End Invariants.

Section UrlSettles.

Context {ML : MomentLib} {AT : AppTypes} {HO : Host}.

(** What the handler leaves in the store: the loaded list as it was, and
    filters and selection that agree with the URL it handled. *)
Lemma urlToAction_store (rt : Runtime) (params : Params) (now : Moment) :
  let st1 := store (snd (urlToAction rt params now)) in
  sessions st1 = sessions (store rt)
  /\ filters_changed st1 params (decoded_date params now) = false
  /\ recording_changed st1 params = false.
Proof.
  cbv zeta. unfold urlToAction, call. cbn [fst snd].
  assert (Hset : forall r id,
             param_sessionRecordingId params = Some id ->
             recording_changed (store (dispatch r (setSessionRecordingId id))) params = false).
  { intros r id Hid. unfold recording_changed. rewrite Hid. cbn.
    rewrite String.eqb_refl. apply andb_false_r. }
  assert (Hfc : forall st, properties st = decoded_properties params ->
                           selectedDate st = Some (decoded_date params now) ->
                           filters_changed st params (decoded_date params now) = false).
  { intros st Hp Hd. unfold filters_changed. now rewrite Hp, Hd, !String.eqb_refl. }
  assert (Hnone : forall st, param_sessionRecordingId params = None ->
                             recording_changed st params = false).
  { intros st Hid. unfold recording_changed. now rewrite Hid. }
  destruct (filters_changed (store rt) params (decoded_date params now)) eqn:Efc;
    [| destruct (length (sessions (store rt)) =? 0)%nat];
    cbn [fst snd];
    (destruct (param_sessionRecordingId params) as [id|] eqn:Hid;
     [ match goal with |- context [if ?c then _ else _] => destruct c eqn:Erc end;
       cbn [fst snd] | ]);
    repeat split;
    solve [ now apply Hfc | now apply Hset | now apply Hnone | exact Efc | exact Erc ].
Qed.

(** X14.  Handling the same URL a second time, at the same instant, changes
    neither filters nor selection: the handler calls [loadSessions] when no
    session is loaded yet, and nothing otherwise. *)
Theorem urlToAction_settles (rt : Runtime) (params : Params) (now : Moment) :
  fst (urlToAction (snd (urlToAction rt params now)) params now)
  = if (length (sessions (store rt)) =? 0)%nat then [loadSessions] else [].
Proof.
  destruct (urlToAction_store rt params now) as (Hsessions & Hfilters & Hrecording).
  set (rt1 := snd (urlToAction rt params now)) in *.
  unfold urlToAction, call. cbn [fst snd]. rewrite Hfilters, Hsessions.
  assert (Hload : recording_changed (store (dispatch rt1 loadSessions)) params = false)
    by exact Hrecording.
  destruct (length (sessions (store rt)) =? 0)%nat; cbn [fst snd app];
    destruct (param_sessionRecordingId params) as [id|]; try reflexivity.
  - now rewrite Hload.
  - now rewrite Hrecording.
Qed.

(** X15.  The URL that [buildURL] writes keeps the path and the [properties]
    parameter of the current URL, never carries today's date, and never
    carries an empty recording id; a date or an id it does carry is the one
    it was given. *)
Theorem buildURL_params
    (router : RouterValues) (now : Moment)
    (day : option string) (id : option SessionRecordingId) :
  let url := buildURL router now day id in
  fst url = pathname router
  /\ param_properties (snd url) = param_properties (searchParams router)
  /\ date (snd url) <> Some (format_ymd (startOf_day now))
  /\ (date (snd url) = None \/ date (snd url) = day)
  /\ param_sessionRecordingId (snd url) <> Some ""%string
  /\ (param_sessionRecordingId (snd url) = None \/ param_sessionRecordingId (snd url) = id).
Proof.
  cbv zeta. unfold buildURL. cbn [fst snd].
  destruct (param_properties (searchParams router)) as [p|];
    destruct (opt_string_eqb day (Some (format_ymd (startOf_day now)))) eqn:Eday;
    destruct (truthy_string id) eqn:Eid; cbn;
    (repeat split; try solve [now left | now right | discriminate]);
    try (intros Habs; rewrite Habs in Eday; cbn in Eday;
         rewrite String.eqb_refl in Eday; discriminate);
    try (intros Habs; rewrite Habs in Eid; discriminate).
Qed.

(** X16.  Selecting or closing a recording rewrites only the
    [sessionRecordingId] parameter of the URL: the path, the date parameter
    and the [properties] parameter are those of the URL for the store before
    the action; the id parameter is the selected id, absent when that id is
    empty, and absent after [closeSessionPlayer]. *)
Theorem actionToUrl_selection
    (router : RouterValues) (now : Moment) (st : State) (id : SessionRecordingId) :
  let base := snd (buildURL router now (selectedDateURLparam st) (sessionRecordingId st)) in
  (exists params,
      actionToUrl router now (reducer st (setSessionRecordingId id))
                  (setSessionRecordingId id)
      = Some (pathname router, params)
      /\ date params = date base
      /\ param_properties params = param_properties base
      /\ param_sessionRecordingId params
         = (if String.eqb id "" then None else Some id))
  /\ (exists params,
         actionToUrl router now (reducer st closeSessionPlayer) closeSessionPlayer
         = Some (pathname router, params)
         /\ date params = date base
         /\ param_properties params = param_properties base
         /\ param_sessionRecordingId params = None).
Proof.
  cbv zeta. unfold actionToUrl, buildURL. cbn [fst snd].
  change (selectedDateURLparam (reducer st (setSessionRecordingId id)))
    with (selectedDateURLparam st).
  change (selectedDateURLparam (reducer st closeSessionPlayer))
    with (selectedDateURLparam st).
  change (sessionRecordingId (reducer st (setSessionRecordingId id))) with (Some id).
  cbn [truthy_string].
  split; eexists; (split; [reflexivity |]);
    destruct (negb (opt_string_eqb (selectedDateURLparam st)
                                   (Some (format_ymd (startOf_day now)))));
    destruct (param_properties (searchParams router));
    destruct (truthy_string (sessionRecordingId st));
    destruct (String.eqb id ""); cbn; repeat split.
Qed.

End UrlSettles.

Module SampleRuns.
Import Sample.

Example sample_format : format_ymd may_1_2021 = "2021-05-01".
Proof. vm_compute. reflexivity. Qed.

Example sample_next_day : format_ymd (add_days 31 may_1_2021) = "2021-06-01".
Proof. vm_compute. reflexivity. Qed.

Example sample_start_of_day : format_ymd (startOf_day (add_days 1 noon)) = "2021-05-02".
Proof. vm_compute. reflexivity. Qed.

(** The scenario of the first page: list [S1; S2], cursor 20. *)
Example scenario_first_page :
  sessions (store first_page_loaded) = [S1; S2]
  /\ nextOffset (store first_page_loaded) = Some 20.
Proof. vm_compute. split; reflexivity. Qed.

(** The scenario of the failed initial load: list empty, cursor null,
    loading-next untouched. *)
Example scenario_initial_load_fails :
  store (run mounted [Dispatch (setFilters [] (Some may_1_2021)); DelayElapsed 1;
                      Reject Load 1])
  = reducer defaults (setFilters [] (Some may_1_2021)).
Proof. reflexivity. Qed.

(** The latest of two overlapping calls did commit its page. *)
Example overlapping_latest_committed :
  sessions (store overlapping) = [S1; S2]
  /\ nextOffset (store overlapping) = Some 20
  /\ loadCalls overlapping = 2%nat
  /\ take_pending Load 1 (inflight overlapping)
     = Some ("api/insight/session/?offset=0&distinct_id=&properties=[]", []).
Proof. vm_compute. repeat split. Qed.

(** *** C1 *)

(** After a failed next-page fetch the loading-next flag is still true. *)
Lemma failed_next_page_keeps_loading :
  take_pending Next 1 (inflight next_requested)
  = Some ("api/insight/session/?", [])
  /\ isLoadingNext (store (step next_requested (Reject Next 1))) = true
  /\ isLoadingNext (store (step next_requested (Reject Next 1))) <> false.
Proof. vm_compute. repeat split. discriminate. Qed.

Lemma rejected_requests_witness :
  take_pending Next 1 (inflight next_requested) = Some ("api/insight/session/?", [])
  /\ store (step next_requested (Reject Next 1)) = store next_requested
  /\ sessions (store (step next_requested (Reject Next 1))) = sessions (store next_requested)
  /\ nextOffset (store (step next_requested (Reject Next 1)))
     = nextOffset (store next_requested).
Proof.
  split; [vm_compute; reflexivity |].
  apply (rejected_requests next_requested Next 1 "api/insight/session/?" []).
  vm_compute. reflexivity.
Defined.

(** *** C2 *)

(** With a null cursor, [fetchNextSessions] does issue a request. *)
Lemma null_cursor_still_fetches :
  nextOffset (store mounted) = None
  /\ inflight mounted = []
  /\ inflight (step mounted (Dispatch fetchNextSessions))
     = [{| p_kind := Next; p_call := 1; p_url := "api/insight/session/?" |}]
  /\ inflight (step mounted (Dispatch fetchNextSessions)) <> inflight mounted.
Proof. vm_compute. repeat split. discriminate. Qed.

(** *** C3 *)

(** No date is selected and the URL carries one, so the decoded filters
    differ from the current ones; yet [setFilters] is not called, and
    neither is anything else. *)
Lemma url_date_ignored_without_selected_date :
  selectedDate (store opened_bare) = None
  /\ selectedDateURLparam (store opened_bare)
     <> Some (format_ymd (decoded_date april_url noon))
  /\ fst (urlToAction opened_bare april_url noon) = []
  /\ ~ In (setFilters (decoded_properties april_url) (Some (decoded_date april_url noon)))
          (fst (urlToAction opened_bare april_url noon)).
Proof.
  assert (Hcalls : fst (urlToAction opened_bare april_url noon) = []) by reflexivity.
  split; [reflexivity | split; [vm_compute; discriminate | split; [exact Hcalls |]]].
  rewrite Hcalls. intros [].
Qed.

Lemma urlToAction_reconciles_witness :
  exists filter_calls recording_calls,
    fst (urlToAction first_page_loaded
           {| date := Some "2021-04-01"; param_properties := None;
              param_sessionRecordingId := Some "r2" |} noon)
    = filter_calls ++ recording_calls
    /\ filter_calls = [setFilters [] (Some (parse "2021-04-01"))]
    /\ recording_calls = [setSessionRecordingId "r2"].
Proof.
  destruct (urlToAction_reconciles first_page_loaded
              {| date := Some "2021-04-01"; param_properties := None;
                 param_sessionRecordingId := Some "r2" |} noon)
    as (fc & rc & Hcalls & Hset & _ & _ & Hrec & _).
  exists fc, rc. split; [exact Hcalls | split].
  - rewrite Hset; [reflexivity |].
    right. exists may_1_2021. split; [reflexivity | vm_compute; discriminate].
  - apply Hrec; [reflexivity | discriminate | vm_compute; discriminate].
Defined.

(** *** C4 *)

(** The filters were set by an action while the URL had no [properties]:
    the written URL has none either, and decodes to the empty list. *)
Lemma url_loses_property_filters :
  properties filtered = [browser_filter]
  /\ decoded_properties
       (snd (buildURL bare_router noon (selectedDateURLparam filtered)
                      (sessionRecordingId filtered)))
     = []
  /\ decoded_properties
       (snd (buildURL bare_router noon (selectedDateURLparam filtered)
                      (sessionRecordingId filtered)))
     <> properties filtered.
Proof. vm_compute. repeat split. discriminate. Qed.

Lemma url_round_trip_witness :
  selectedDate filtered = Some may_1_2021
  /\ format_ymd (startOf_day (moment_parse (format_ymd may_1_2021))) = format_ymd may_1_2021
  /\ decoded_properties (searchParams filter_router) = properties filtered
  /\ format_ymd (decoded_date
                   (snd (buildURL filter_router (add_days 3 noon)
                                  (selectedDateURLparam filtered)
                                  (sessionRecordingId filtered)))
                   (add_days 3 noon))
     = "2021-05-01"
  /\ decoded_properties
       (snd (buildURL filter_router (add_days 3 noon)
                      (selectedDateURLparam filtered) (sessionRecordingId filtered)))
     = properties filtered
  /\ param_sessionRecordingId
       (snd (buildURL filter_router (add_days 3 noon)
                      (selectedDateURLparam filtered) (sessionRecordingId filtered)))
     = Some "r1".
Proof.
  assert (Hparse : format_ymd (startOf_day (moment_parse (format_ymd may_1_2021)))
                   = format_ymd may_1_2021) by (vm_compute; reflexivity).
  assert (Hne : format_ymd may_1_2021 <> "") by (vm_compute; discriminate).
  destruct (url_round_trip filtered filter_router (add_days 3 noon) may_1_2021
              eq_refl Hne Hparse eq_refl)
    as (Hday & _ & Hprops & Hid & _).
  split; [reflexivity | split; [exact Hparse | split; [reflexivity |]]].
  split; [rewrite Hday; vm_compute; reflexivity | split; [exact Hprops | exact Hid]].
Defined.

(** *** C5 *)

Lemma cursor_null_after_setFilters_witness :
  forallb no_response [Dispatch fetchNextSessions; DelayElapsed 2; Reject Next 1;
                       Dispatch (setSessionRecordingId "r1")] = true
  /\ nextOffset (store (step first_page_loaded
                       (Dispatch (setFilters [browser_filter] (Some may_1_2021))))) = None
  /\ nextOffset (store (run (step first_page_loaded
                               (Dispatch (setFilters [browser_filter] (Some may_1_2021))))
                            [Dispatch fetchNextSessions; DelayElapsed 2;
                             Reject Next 1; Dispatch (setSessionRecordingId "r1")]))
     = None.
Proof.
  destruct (cursor_null_after_setFilters first_page_loaded [browser_filter]
              (Some may_1_2021)
              [Dispatch fetchNextSessions; DelayElapsed 2; Reject Next 1;
               Dispatch (setSessionRecordingId "r1")] eq_refl)
    as (Hafter & Hlater & _).
  split; [reflexivity | split; [exact Hafter | exact Hlater]].
Defined.

(** *** C6 *)

(** The scenario of the second page: list [S1; S2; S3], cursor null,
    loading-next false. *)
Lemma fetchNextSessions_success_witness :
  nextOffset (store first_page_loaded) = Some 20
  /\ sessions (store (run first_page_loaded
                     [Dispatch fetchNextSessions; Respond Next 1 page2]))
  = [S1; S2; S3]
  /\ nextOffset (store (run first_page_loaded
                          [Dispatch fetchNextSessions; Respond Next 1 page2]))
     = None
  /\ isLoadingNext (store (run first_page_loaded
                             [Dispatch fetchNextSessions; Respond Next 1 page2]))
     = false.
Proof.
  destruct (fetchNextSessions_success first_page_loaded 20 page2 eq_refl)
    as (_ & Hlist & Hcursor & Hflag & _).
  split; [reflexivity | split; [exact Hlist | split; [exact Hcursor | exact Hflag]]].
Defined.

(** *** C7 *)

(** With a repeated id, [prev] from the next recording does not lead back. *)
Lemma navigation_asymmetric_on_repeated_id :
  orderedSessionRecordingIds [repeated] = ["b"; "a"; "b"]
  /\ next (sessionRecordingNavigation (orderedSessionRecordingIds [repeated]) (Some "a"))
     = Some "b"
  /\ prev (sessionRecordingNavigation (orderedSessionRecordingIds [repeated]) (Some "b"))
     = None
  /\ prev (sessionRecordingNavigation (orderedSessionRecordingIds [repeated]) (Some "b"))
     <> Some "a".
Proof. vm_compute. repeat split. discriminate. Qed.

Lemma navigation_next_then_prev_witness :
  NoDup (orderedSessionRecordingIds [S1; S2; S3])
  /\ next (sessionRecordingNavigation (orderedSessionRecordingIds [S1; S2; S3]) (Some "r1"))
     = Some "r2"
  /\ prev (sessionRecordingNavigation (orderedSessionRecordingIds [S1; S2; S3]) (Some "r2"))
     = Some "r1".
Proof.
  assert (Hnd : NoDup (orderedSessionRecordingIds [S1; S2; S3]))
    by (vm_compute; repeat constructor; simpl; intuition discriminate).
  split; [exact Hnd | split; [reflexivity |]].
  apply (navigation_next_then_prev [S1; S2; S3] "r1" "r2" Hnd).
  reflexivity.
Defined.

(** *** C9 *)

(** The superseded call's request fails after the latest call has
    committed its page: the list and the cursor are wiped. *)
Lemma superseded_failure_clears_list :
  1%nat <> loadCalls overlapping
  /\ sessions (store overlapping) = [S1; S2]
  /\ nextOffset (store overlapping) = Some 20
  /\ sessions (store (step overlapping (Reject Load 1))) = []
  /\ nextOffset (store (step overlapping (Reject Load 1))) = None
  /\ store (step overlapping (Reject Load 1)) <> store overlapping.
Proof.
  split; [vm_compute; discriminate |].
  split; [vm_compute; reflexivity |].
  split; [vm_compute; reflexivity |].
  split; [vm_compute; reflexivity |].
  split; [vm_compute; reflexivity |].
  intros H. apply (f_equal nextOffset) in H. vm_compute in H. discriminate H.
Qed.

Lemma superseded_loadSessions_abandoned_witness :
  1%nat <> loadCalls overlapping
  /\ take_pending Load 1 (inflight overlapping)
     = Some ("api/insight/session/?offset=0&distinct_id=&properties=[]", [])
  /\ store (step overlapping (Respond Load 1 page2)) = store overlapping.
Proof.
  assert (Hstale : 1%nat <> loadCalls overlapping) by (vm_compute; discriminate).
  split; [exact Hstale | split; [vm_compute; reflexivity |]].
  destruct (superseded_loadSessions_abandoned overlapping 1 Hstale) as (Hresp & _).
  apply Hresp.
Defined.

(** *** Navigation at the edges *)

Lemma navigation_absent_witness :
  ~ In "r9" ["r1"; "r2"]
  /\ sessionRecordingNavigation ["r1"; "r2"] (Some "r9") = {| next := None; prev := None |}.
Proof.
  assert (Hnotin : ~ In "r9" ["r1"; "r2"]) by (simpl; intuition discriminate).
  split; [exact Hnotin |].
  apply (navigation_absent ["r1"; "r2"] (Some "r9")).
  right. exists "r9". split; [reflexivity | exact Hnotin].
Defined.

Lemma navigation_at_first_occurrence_witness :
  ~ In "a" ["b"]
  /\ sessionRecordingNavigation ["b"; "a"; "b"] (Some "a")
     = {| next := Some "b"; prev := Some "b" |}.
Proof.
  assert (Hnotin : ~ In "a" ["b"]) by (simpl; intuition discriminate).
  split; [exact Hnotin |].
  exact (navigation_at_first_occurrence ["b"] ["b"] "a" Hnotin).
Defined.

Lemma navigation_prev_then_next_witness :
  NoDup ["r1"; "r2"; "r3"]
  /\ prev (sessionRecordingNavigation ["r1"; "r2"; "r3"] (Some "r2")) = Some "r1"
  /\ next (sessionRecordingNavigation ["r1"; "r2"; "r3"] (Some "r1")) = Some "r2".
Proof.
  assert (Hnd : NoDup ["r1"; "r2"; "r3"])
    by (repeat constructor; simpl; intuition discriminate).
  split; [exact Hnd | split; [reflexivity |]].
  apply (navigation_prev_then_next ["r1"; "r2"; "r3"] "r2" "r1" Hnd). reflexivity.
Defined.

Lemma navigation_stable_under_append_witness :
  In "r1" (orderedSessionRecordingIds (sessions (store first_page_loaded)))
  /\ next (sessionRecordingNavigation
             (orderedSessionRecordingIds
                (sessions (reducer (store first_page_loaded) (appendNewSessions [S3]))))
             (Some "r1"))
     = Some "r2".
Proof.
  assert (Hin : In "r1" (orderedSessionRecordingIds (sessions (store first_page_loaded))))
    by (left; reflexivity).
  split; [exact Hin |].
  destruct (navigation_stable_under_append (store first_page_loaded) [S3] "r1" Hin)
    as [_ Hnext].
  apply Hnext. reflexivity.
Defined.

(** *** Request flows *)


(** *** Invariants *)

Lemma latest_fetch_in_flight_is_loading_witness :
  forallb from_outside fetch_then_filter = true
  /\ isLoadingNext (store (run mounted fetch_then_filter)) = true.
Proof.
  split; [reflexivity |].
  destruct (latest_fetch_in_flight_is_loading fetch_then_filter eq_refl) as [Hflag _].
  apply (Hflag {| p_kind := Next; p_call := 1; p_url := "api/insight/session/?" |}).
  - right. left. reflexivity.
  - reflexivity.
  - reflexivity.
Defined.

Lemma stored_cursor_never_zero_witness :
  forallb from_outside load_with_offset_zero = true
  /\ nextOffset (store (run mounted load_with_offset_zero)) <> Some 0.
Proof.
  split; [reflexivity |].
  apply (stored_cursor_never_zero load_with_offset_zero). reflexivity.
Defined.

(** The response with offset 0 leaves the cursor null. *)
Example offset_zero_is_stored_as_null :
  nextOffset (store (run mounted load_with_offset_zero)) = None.
Proof. reflexivity. Qed.

End SampleRuns.
